(** * Closed-loop PID simulation of the air fryer ([tdc.py])

    Shallow embedding of [simular_air_fryer] and proofs about the
    discrete-time control loop: deadband gating, PID law, saturation,
    disturbance superposition, Euler plant update and ambient floor.

    Numbers.  The program computes with binary64 floating point.  In the
    first embedding a float is idealised as an exact rational ([Q]):
    rounding, infinities and NaN are outside it.  Stored values are
    compared with Leibniz equality where the program copies them, and
    with [==] ([Qeq]) where arithmetic is involved.  Properties that turn
    on NaN, on overflow or on the rounding of the time grid are stated
    on a second embedding, [B64], of the same program on the kernel's
    binary64 floats.

    Arrays.  A NumPy array is a [list Q]; [np.zeros n] is [replicate n 0];
    [a[i] = v] is [setitem] (stdpp's [<[i:=v]>], raising [IndexError] out
    of range), [a[i]] is [getitem].

    Exceptions are values of [resultado]. *)

From Stdlib Require Import ZArith QArith Qabs Qround Lqa Lia Ascii Floats.
From stdpp Require Import base list strings.

Local Open Scope Q_scope.

(** ** Exceptions *)

Inductive excepcion : Type :=
| ArangeError        (* np.arange cannot compute a length: step 0 *)
| IndexError         (* index out of bounds *)
| ZeroDivisionError. (* float division by zero *)

Inductive resultado (A : Type) : Type :=
| Ok (a : A)
| Raise (e : excepcion).

Arguments Ok {A} a.
Arguments Raise {A} e.

#[export] Instance resultado_ret : MRet resultado := fun A a => Ok a.
#[export] Instance resultado_bind : MBind resultado :=
  fun A B k m => match m with Ok a => k a | Raise e => Raise e end.
#[export] Instance resultado_fmap : FMap resultado :=
  fun A B g m => match m with Ok a => Ok (g a) | Raise e => Raise e end.

(** ** Numeric helpers *)

#[export] Instance Q_inhabited : Inhabited Q := populate 0.

(** [x < y] on floats, as a test. *)
Definition Qlt_bool (x y : Q) : bool := negb (Qle_bool y x).

(** [x / y] on Python floats raises when [y] is zero. *)
Definition dividir (x y : Q) : resultado Q :=
  if Qeq_bool y 0 then Raise ZeroDivisionError else Ok (x / y).

(** ** Arrays *)

Definition zeros (n : nat) : list Q := replicate n 0.

Definition getitem (a : list Q) (i : nat) : resultado Q :=
  match a !! i with
  | Some x => Ok x
  | None => Raise IndexError
  end.

Definition setitem (a : list Q) (i : nat) (v : Q) : resultado (list Q) :=
  if (i <? length a)%nat then Ok (<[i := v]> a) else Raise IndexError.

(** [np.arange(start, stop, step)]: [ceil((stop - start) / step)] values
    [start + k * step], none when that number is not positive; a zero
    step is refused. *)
Definition arange (start stop step : Q) : resultado (list Q) :=
  if Qeq_bool step 0 then Raise ArangeError
  else
    let n := Z.to_nat (Qceiling ((stop - start) / step)) in
    Ok ((fun k : nat => start + inject_Z (Z.of_nat k) * step) <$> seq 0 n).

(** ** Inputs *)

(** One entry of [perturbaciones_data]: the dictionary
    [{'tiempo': _, 'valor': _, 'duracion': _}]. *)
Record perturbacion : Type := Perturbacion {
  p_tiempo : Q;
  p_valor : Q;
  p_duracion : Q
}.

(** The arguments of [simular_air_fryer]. *)
Record parametros : Type := Parametros {
  theta_i : Q;
  kp_c : Q;
  ki_c : Q;
  kd_c : Q;
  tau_s : Q;
  delta_t : Q;
  duracion : Q;
  deadband_threshold : Q;
  perturbaciones_data : option (list perturbacion)
}.

Definition AMBIENT_TEMPERATURE : Q := 20.

(** ** The pieces of one loop iteration *)

(** Lines 70-72: the error seen by the PID terms. *)
Definition error_efectivo (deadband error_i : Q) : Q :=
  if Qlt_bool (Qabs error_i) deadband then 0 else error_i.

(** Lines 79-80: the accumulator moves only on a non-zero effective error. *)
Definition acumular (integral_error effective_error dt : Q) : Q :=
  if negb (Qeq_bool effective_error 0)
  then integral_error + effective_error * dt
  else integral_error.

(** Line 83. *)
Definition derivada (effective_error ultimo_error dt : Q) : Q :=
  (effective_error - ultimo_error) / dt.

(** Lines 85-87: controller output before saturation. *)
Definition salida_pid (c : parametros)
    (effective_error integral_error derivada_error : Q) : Q :=
  kp_c c * effective_error + ki_c c * integral_error + kd_c c * derivada_error.

(** Lines 90-93: two successive tests on the stored output. *)
Definition saturar (u : Q) : Q :=
  let u1 := if Qlt_bool u 0 then 0 else u in
  if Qlt_bool 200 u1 then 200 else u1.

(** Lines 98-105: sum of the active windows at time [t]. *)
Definition activa (t : Q) (p_info : perturbacion) : bool :=
  Qle_bool (p_tiempo p_info) t && Qlt_bool t (p_tiempo p_info + p_duracion p_info).

Definition perturbacion_actual (data : option (list perturbacion)) (t : Q) : Q :=
  match data with
  | None => 0
  | Some l =>
      fold_left
        (fun current p_info =>
           if activa t p_info then current + p_valor p_info else current)
        l 0
  end.

(** Lines 111-112, with the reciprocal of [tau_s] already computed. *)
Definition euler (c : parametros) (inv_tau theta_c prev p : Q) : Q :=
  prev + (inv_tau * (theta_c - prev) + p) * delta_t c.

(** Lines 115-116. *)
Definition piso (x : Q) : Q :=
  if Qlt_bool x AMBIENT_TEMPERATURE then AMBIENT_TEMPERATURE else x.

(** ** Loop state: the six arrays being filled and the two scalars *)

Record estado : Type := Estado {
  theta_o : list Q;
  theta_controlador : list Q;
  f : list Q;
  error : list Q;
  p_total : list Q;
  effective_error_for_plotting : list Q;
  integral_error : Q;
  ultimo_error : Q
}.

(** Lines 54-64. *)
Definition inicial (num_pasos : nat) : resultado estado :=
  theta_o0 ← setitem (zeros num_pasos) 0 AMBIENT_TEMPERATURE;
  Ok {| theta_o := theta_o0;
        theta_controlador := zeros num_pasos;
        f := zeros num_pasos;
        error := zeros num_pasos;
        p_total := zeros num_pasos;
        effective_error_for_plotting := zeros num_pasos;
        integral_error := 0;
        ultimo_error := 0 |}.

(** Lines 67-116: the body of the loop at index [i].  A cell read back
    right after it was written is the value written. *)
Definition paso (c : parametros) (tiempo : list Q) (s : estado) (i : nat)
  : resultado estado :=
  prev ← getitem (theta_o s) (i - 1);
  f' ← setitem (f s) i prev;
  let error_i := theta_i c - prev in
  error' ← setitem (error s) i error_i;
  let effective_error := error_efectivo (deadband_threshold c) error_i in
  eff' ← setitem (effective_error_for_plotting s) i effective_error;
  let integral' := acumular (integral_error s) effective_error (delta_t c) in
  let derivada_error := derivada effective_error (ultimo_error s) (delta_t c) in
  let theta_c := saturar (salida_pid c effective_error integral' derivada_error) in
  theta_controlador' ← setitem (theta_controlador s) i theta_c;
  t_i ← getitem tiempo i;
  let current_perturbation_value :=
    perturbacion_actual (perturbaciones_data c) t_i in
  p_total' ← setitem (p_total s) i current_perturbation_value;
  inv_tau ← dividir 1 (tau_s c);
  theta_o' ← setitem (theta_o s) i
    (piso (euler c inv_tau theta_c prev current_perturbation_value));
  Ok {| theta_o := theta_o';
        theta_controlador := theta_controlador';
        f := f';
        error := error';
        p_total := p_total';
        effective_error_for_plotting := eff';
        integral_error := integral';
        ultimo_error := effective_error |}.

(** [for i in indices: body]. *)
Fixpoint bucle (c : parametros) (tiempo : list Q) (indices : list nat)
    (s : estado) : resultado estado :=
  match indices with
  | [] => Ok s
  | i :: resto => s' ← paso c tiempo s i; bucle c tiempo resto s'
  end.

(** ** The simulation *)

(** The seven arrays returned on line 118. *)
Record series : Type := Series {
  s_tiempo : list Q;
  s_theta_o : list Q;
  s_theta_controlador : list Q;
  s_f : list Q;
  s_error : list Q;
  s_p_total : list Q;
  s_effective_error : list Q
}.

Definition empaquetar (tiempo : list Q) (s : estado) : series :=
  {| s_tiempo := tiempo;
     s_theta_o := theta_o s;
     s_theta_controlador := theta_controlador s;
     s_f := f s;
     s_error := error s;
     s_p_total := p_total s;
     s_effective_error := effective_error_for_plotting s |}.

(** Line 51. *)
Definition malla (c : parametros) : resultado (list Q) :=
  arange 0 (duracion c + delta_t c) (delta_t c).

(** The loop state once iterations [1 .. k] have run, over time grid
    [tiempo]. *)
Definition estado_tras (c : parametros) (tiempo : list Q) (k : nat)
  : resultado estado :=
  s0 ← inicial (length tiempo);
  bucle c tiempo (seq 1 k) s0.

Definition simular_air_fryer (c : parametros) : resultado series :=
  tiempo ← malla c;
  let num_pasos := length tiempo in
  s ← estado_tras c tiempo (num_pasos - 1);
  Ok (empaquetar tiempo s).

(** ** Test scenarios *)

Definition escenario (d : Q) : parametros :=
  {| theta_i := 180; kp_c := 2; ki_c := 1 # 1000; kd_c := 5;
     tau_s := 175; delta_t := 1; duracion := d; deadband_threshold := 5;
     perturbaciones_data := Some [Perturbacion 600 (-2) 40] |}.




(** ** Notions used by the statements *)

(** [num_pasos] as a function of the arguments, when [delta_t] is not 0. *)
Definition num_pasos (c : parametros) : nat :=
  Z.to_nat (Qceiling ((duracion c + delta_t c - 0) / delta_t c)).

(** All six arrays of a state have [n] cells. *)
Definition bien_formado (n : nat) (s : estado) : Prop :=
  length (theta_o s) = n /\ length (theta_controlador s) = n /\
  length (f s) = n /\ length (error s) = n /\
  length (p_total s) = n /\ length (effective_error_for_plotting s) = n.

(** Index [i] is within each of the six arrays. *)
Definition cabe (i : nat) (s : estado) : Prop :=
  (i < length (theta_o s))%nat /\ (i < length (theta_controlador s))%nat /\
  (i < length (f s))%nat /\ (i < length (error s))%nat /\
  (i < length (p_total s))%nat /\
  (i < length (effective_error_for_plotting s))%nat.

(** The cells of index [j] in the six arrays of a state. *)
Definition celdas (s : estado) (j : nat) :=
  (theta_o s !! j, theta_controlador s !! j, f s !! j,
   error s !! j, p_total s !! j, effective_error_for_plotting s !! j).

(** The same cells in the returned series. *)
Definition celdas_series (r : series) (j : nat) :=
  (s_theta_o r !! j, s_theta_controlador r !! j, s_f r !! j,
   s_error r !! j, s_p_total r !! j, s_effective_error r !! j).

(** The state an iteration at index [i] leaves behind when nothing is
    raised, from the feedback sample [prev] and the time [t_i]. *)
Definition siguiente (c : parametros) (s : estado) (i : nat) (prev t_i : Q)
  : estado :=
  let error_i := theta_i c - prev in
  let effective_error := error_efectivo (deadband_threshold c) error_i in
  let integral' := acumular (integral_error s) effective_error (delta_t c) in
  let derivada_error := derivada effective_error (ultimo_error s) (delta_t c) in
  let theta_c := saturar (salida_pid c effective_error integral' derivada_error) in
  let p := perturbacion_actual (perturbaciones_data c) t_i in
  {| theta_o := <[i := piso (euler c (1 / tau_s c) theta_c prev p)]> (theta_o s);
     theta_controlador := <[i := theta_c]> (theta_controlador s);
     f := <[i := prev]> (f s);
     error := <[i := error_i]> (error s);
     p_total := <[i := p]> (p_total s);
     effective_error_for_plotting :=
       <[i := effective_error]> (effective_error_for_plotting s);
     integral_error := integral';
     ultimo_error := effective_error |}.


(** The series of a run, empty when it raised. *)
Definition resultado_de (c : parametros) : series :=
  match simular_air_fryer c with
  | Ok r => r
  | Raise _ => Series [] [] [] [] [] [] []
  end.

(** The time grid of a configuration, empty when it cannot be built. *)
Definition malla_de (c : parametros) : list Q :=
  match malla c with
  | Ok tiempo => tiempo
  | Raise _ => []
  end.

(** The cells of index [m] once iterations [1 .. k] have run. *)
Definition celdas_tras (c : parametros) (tiempo : list Q) (k m : nat) :=
  match estado_tras c tiempo k with
  | Ok s => celdas s m
  | Raise _ => (None, None, None, None, None, None)
  end.

(** The two scalars carried by the loop once iterations [1 .. k] have
    run. *)
Definition escalares_tras (c : parametros) (tiempo : list Q) (k : nat) :=
  match estado_tras c tiempo k with
  | Ok s => Some (integral_error s, ultimo_error s)
  | Raise _ => None
  end.



(** ** The caller [run_simulation_and_plot] and the window layout *)

(** How reading the entry fields ends: a value, the format message of
    lines 161-163, or the [ValueError] of a failed [float] caught on
    line 243. *)
Inductive lectura (A : Type) : Type :=
| Leido (a : A)
| FormatoIncorrecto
| ValorNoNumerico.

Arguments Leido {A} a.
Arguments FormatoIncorrecto {A}.
Arguments ValorNoNumerico {A}.

#[export] Instance lectura_ret : MRet lectura := fun A a => Leido a.
#[export] Instance lectura_bind : MBind lectura :=
  fun A B k m =>
    match m with
    | Leido a => k a
    | FormatoIncorrecto => FormatoIncorrecto
    | ValorNoNumerico => ValorNoNumerico
    end.

(** [s.split(sep)] for a one-character separator: every occurrence
    cuts, empty pieces are kept, and the empty text gives one empty
    piece. *)
Fixpoint split (sep : ascii) (s : string) : list string :=
  match s with
  | EmptyString => [EmptyString]
  | String ch resto =>
      if Ascii.eqb ch sep then EmptyString :: split sep resto
      else
        match split sep resto with
        | actual :: otros => String ch actual :: otros
        | [] => [String ch EmptyString]
        end
  end.

(** [float(x.strip())], with the two built-ins [float] and [strip] as
    parameters; [float] answers [None] where Python raises [ValueError]. *)
Definition leer_float (float : string -> option Q) (strip : string -> string)
    (x : string) : lectura Q :=
  match float (strip x) with
  | Some v => Leido v
  | None => ValorNoNumerico
  end.

(** Lines 154-163: one piece [p_raw] of the disturbance text. *)
Definition leer_perturbacion (float : string -> option Q)
    (strip : string -> string) (p_raw : string) : lectura perturbacion :=
  match split "," p_raw with
  | [a; b; c] =>
      tiempo_p ← leer_float float strip a;
      valor_p ← leer_float float strip b;
      duracion_p ← leer_float float strip c;
      Leido (Perturbacion tiempo_p valor_p duracion_p)
  | _ => FormatoIncorrecto
  end.

(** Lines 153-163: the loop over the pieces, appending to
    [perturbaciones_list]. *)
Fixpoint leer_perturbaciones (float : string -> option Q)
    (strip : string -> string) (perturbaciones_raw : list string)
    (perturbaciones_list : list perturbacion) : lectura (list perturbacion) :=
  match perturbaciones_raw with
  | [] => Leido perturbaciones_list
  | p_raw :: resto =>
      p ← leer_perturbacion float strip p_raw;
      leer_perturbaciones float strip resto (perturbaciones_list ++ [p])
  end.

(** Lines 149-163: from the text of the disturbance entry to the list
    handed to the simulation. *)
Definition parsear_perturbaciones (float : string -> option Q)
    (strip : string -> string) (texto : string) : lectura (list perturbacion) :=
  let perturbaciones_str := strip texto in
  match perturbaciones_str with
  | EmptyString => Leido []
  | _ => leer_perturbaciones float strip (split ";" perturbaciones_str) []
  end.

(** Lines 304-310: where the [i]-th parameter row goes in the control
    frame; the label sits in column [columna] and the entry in the next
    one. *)
Definition params_per_col (num_params : nat) : nat := (num_params + 1) / 2.

Definition columna (num_params i : nat) : nat :=
  if (i <? params_per_col num_params)%nat then 0%nat else 2%nat.

Definition current_row (num_params i : nat) : nat :=
  if (i <? params_per_col num_params)%nat then i
  else (i - params_per_col num_params)%nat.

(** ** Notions used by the further statements *)

(** The same arguments with another list of disturbances. *)
Definition con_perturbaciones (c : parametros)
    (data : option (list perturbacion)) : parametros :=
  {| theta_i := theta_i c; kp_c := kp_c c; ki_c := ki_c c; kd_c := kd_c c;
     tau_s := tau_s c; delta_t := delta_t c; duracion := duracion c;
     deadband_threshold := deadband_threshold c;
     perturbaciones_data := data |}.

(** The same arguments with another duration. *)
Definition con_duracion (c : parametros) (d : Q) : parametros :=
  {| theta_i := theta_i c; kp_c := kp_c c; ki_c := ki_c c; kd_c := kd_c c;
     tau_s := tau_s c; delta_t := delta_t c; duracion := d;
     deadband_threshold := deadband_threshold c;
     perturbaciones_data := perturbaciones_data c |}.

(** Two argument lists that share the controller, the plant, the step
    and the deadband. *)
Definition mismos_ajustes (c c' : parametros) : Prop :=
  theta_i c = theta_i c' /\ kp_c c = kp_c c' /\ ki_c c = ki_c c' /\
  kd_c c = kd_c c' /\ tau_s c = tau_s c' /\ delta_t c = delta_t c' /\
  deadband_threshold c = deadband_threshold c'.

(** [sep.join(l)]. *)
Fixpoint unir (sep : ascii) (l : list string) : string :=
  match l with
  | [] => EmptyString
  | [x] => x
  | x :: resto => x +:+ String sep (unir sep resto)
  end.

(** Number of occurrences of a character in a text. *)
Fixpoint ocurrencias (ch : ascii) (s : string) : nat :=
  match s with
  | EmptyString => 0%nat
  | String x resto =>
      ((if Ascii.eqb x ch then 1 else 0) + ocurrencias ch resto)%nat
  end.

(** The text [a,b,c;d,e,f;...] written from rows of three fields. *)
Definition texto_de_campos (campos : list (string * string * string)) : string :=
  unir ";" ((fun '(a, b, c) => unir "," [a; b; c]) <$> campos).

(** A row of field texts reads, through [float] after [strip], as the
    disturbance [q]. *)
Definition campos_de (float : string -> option Q) (strip : string -> string)
    (q : perturbacion) (fila : string * string * string) : Prop :=
  let '(a, b, c) := fila in
  float (strip a) = Some (p_tiempo q) /\
  float (strip b) = Some (p_valor q) /\
  float (strip c) = Some (p_duracion q).

(** A field text free of both separators. *)
Definition sin_separadores (fila : string * string * string) : Prop :=
  let '(a, b, c) := fila in
  ocurrencias "," a = 0%nat /\ ocurrencias ";" a = 0%nat /\
  ocurrencias "," b = 0%nat /\ ocurrencias ";" b = 0%nat /\
  ocurrencias "," c = 0%nat /\ ocurrencias ";" c = 0%nat.

(** A float reader for the examples: the three numerals of the default
    disturbance. *)
Definition float_de_ejemplo (x : string) : option Q :=
  if String.eqb x "600" then Some 600
  else if String.eqb x "-2.0" then Some (-2)
  else if String.eqb x "40" then Some 40
  else None.

(** * The same program on binary64 numbers

    The exact-rational embedding above has no NaN, no infinity and no
    rounding.  Where a property turns on them, the program is embedded a
    second time, operation for operation, on the kernel's binary64
    floats ([PrimFloat], IEEE 754 round-to-nearest-even, which is what a
    Python [float] and a NumPy [float64] are).  The exceptions
    [excepcion] and [resultado] are shared. *)

Module B64.

Local Open Scope float_scope.
#[local] Set Warnings "-inexact-float".

(** Ceiling of a binary64 number as an integer; none for NaN and the
    infinities. *)
Definition techo (x : float) : option Z :=
  match Prim2SF x with
  | S754_nan | S754_infinity _ => None
  | S754_zero _ => Some 0%Z
  | S754_finite s m e =>
      let v := Zpos m in
      Some (if (0 <=? e)%Z then
              (if s then - (v * 2 ^ e) else v * 2 ^ e)%Z
            else
              (if s then - (v / 2 ^ (- e))
               else (v + 2 ^ (- e) - 1) / 2 ^ (- e))%Z)
  end.

(** The index [k] as a binary64 number. *)
Definition de_indice (k : nat) : float :=
  of_uint63 (Uint63.of_Z (Z.of_nat k)).

Definition zeros (n : nat) : list float := replicate n 0.

Definition getitem (a : list float) (i : nat) : resultado float :=
  match a !! i with
  | Some x => Ok x
  | None => Raise IndexError
  end.

Definition setitem (a : list float) (i : nat) (v : float)
  : resultado (list float) :=
  if (i <? length a)%nat then Ok (<[i := v]> a) else Raise IndexError.

(** [np.arange(start, stop, step)] on floats: the length is the
    ceiling of the binary64 quotient [(stop - start) / step], refused
    when the step is zero, when the quotient is NaN and when its ceiling
    does not fit a signed 64-bit index; a non-positive length gives the
    empty array.  The cells are [start], [start + step], and then
    [start + k * delta] with [delta = (start + step) - start].  The
    failure to allocate a very long array is not modelled. *)
Definition arange (start stop step : float) : resultado (list float) :=
  if step =? 0 then Raise ArangeError
  else
    match techo ((stop - start) / step) with
    | None => Raise ArangeError
    | Some z =>
        if (Z.abs z <? 2 ^ 63)%Z then
          let delta := (start + step) - start in
          Ok ((fun k : nat =>
                 match k with
                 | O => start
                 | S O => start + step
                 | _ => start + de_indice k * delta
                 end) <$> seq 0 (Z.to_nat z))
        else Raise ArangeError
    end.

Record perturbacion : Type := Perturbacion {
  p_tiempo : float;
  p_valor : float;
  p_duracion : float
}.

Record parametros : Type := Parametros {
  theta_i : float;
  kp_c : float;
  ki_c : float;
  kd_c : float;
  tau_s : float;
  delta_t : float;
  duracion : float;
  deadband_threshold : float;
  perturbaciones_data : option (list perturbacion)
}.

Definition AMBIENT_TEMPERATURE : float := 20.

(** Lines 70-72. *)
Definition error_efectivo (deadband error_i : float) : float :=
  if abs error_i <? deadband then 0 else error_i.

(** Lines 79-80: [effective_error != 0.0] is true of a NaN. *)
Definition acumular (integral_error effective_error dt : float) : float :=
  if negb (effective_error =? 0)
  then integral_error + effective_error * dt
  else integral_error.

(** Line 83. *)
Definition derivada (effective_error ultimo_error dt : float) : float :=
  (effective_error - ultimo_error) / dt.

(** Lines 85-87. *)
Definition salida_pid (c : parametros)
    (effective_error integral_error derivada_error : float) : float :=
  kp_c c * effective_error + ki_c c * integral_error + kd_c c * derivada_error.

(** Lines 90-93: both tests are false of a NaN. *)
Definition saturar (u : float) : float :=
  let u1 := if u <? 0 then 0 else u in
  if 200 <? u1 then 200 else u1.

(** Lines 98-105. *)
Definition activa (t : float) (p_info : perturbacion) : bool :=
  (p_tiempo p_info <=? t) && (t <? p_tiempo p_info + p_duracion p_info).

Definition perturbacion_actual (data : option (list perturbacion)) (t : float)
  : float :=
  match data with
  | None => 0
  | Some l =>
      fold_left
        (fun current p_info =>
           if activa t p_info then current + p_valor p_info else current)
        l 0
  end.

(** [1 / tau_s] on Python floats raises when [tau_s] is a zero. *)
Definition dividir (x y : float) : resultado float :=
  if y =? 0 then Raise ZeroDivisionError else Ok (x / y).

(** Lines 111-112. *)
Definition euler (c : parametros) (inv_tau theta_c prev p : float) : float :=
  prev + (inv_tau * (theta_c - prev) + p) * delta_t c.

(** Lines 115-116: the test is false of a NaN. *)
Definition piso (x : float) : float :=
  if x <? AMBIENT_TEMPERATURE then AMBIENT_TEMPERATURE else x.

Record estado : Type := Estado {
  theta_o : list float;
  theta_controlador : list float;
  f : list float;
  error : list float;
  p_total : list float;
  effective_error_for_plotting : list float;
  integral_error : float;
  ultimo_error : float
}.

(** Lines 54-64. *)
Definition inicial (num_pasos : nat) : resultado estado :=
  theta_o0 ← setitem (zeros num_pasos) 0 AMBIENT_TEMPERATURE;
  Ok {| theta_o := theta_o0;
        theta_controlador := zeros num_pasos;
        f := zeros num_pasos;
        error := zeros num_pasos;
        p_total := zeros num_pasos;
        effective_error_for_plotting := zeros num_pasos;
        integral_error := 0;
        ultimo_error := 0 |}.

(** Lines 67-116. *)
Definition paso (c : parametros) (tiempo : list float) (s : estado) (i : nat)
  : resultado estado :=
  prev ← getitem (theta_o s) (i - 1);
  f' ← setitem (f s) i prev;
  let error_i := theta_i c - prev in
  error' ← setitem (error s) i error_i;
  let effective_error := error_efectivo (deadband_threshold c) error_i in
  eff' ← setitem (effective_error_for_plotting s) i effective_error;
  let integral' := acumular (integral_error s) effective_error (delta_t c) in
  let derivada_error := derivada effective_error (ultimo_error s) (delta_t c) in
  let theta_c := saturar (salida_pid c effective_error integral' derivada_error) in
  theta_controlador' ← setitem (theta_controlador s) i theta_c;
  t_i ← getitem tiempo i;
  let current_perturbation_value :=
    perturbacion_actual (perturbaciones_data c) t_i in
  p_total' ← setitem (p_total s) i current_perturbation_value;
  inv_tau ← dividir 1 (tau_s c);
  theta_o' ← setitem (theta_o s) i
    (piso (euler c inv_tau theta_c prev current_perturbation_value));
  Ok {| theta_o := theta_o';
        theta_controlador := theta_controlador';
        f := f';
        error := error';
        p_total := p_total';
        effective_error_for_plotting := eff';
        integral_error := integral';
        ultimo_error := effective_error |}.

Fixpoint bucle (c : parametros) (tiempo : list float) (indices : list nat)
    (s : estado) : resultado estado :=
  match indices with
  | [] => Ok s
  | i :: resto => s' ← paso c tiempo s i; bucle c tiempo resto s'
  end.

Record series : Type := Series {
  s_tiempo : list float;
  s_theta_o : list float;
  s_theta_controlador : list float;
  s_f : list float;
  s_error : list float;
  s_p_total : list float;
  s_effective_error : list float
}.

Definition empaquetar (tiempo : list float) (s : estado) : series :=
  {| s_tiempo := tiempo;
     s_theta_o := theta_o s;
     s_theta_controlador := theta_controlador s;
     s_f := f s;
     s_error := error s;
     s_p_total := p_total s;
     s_effective_error := effective_error_for_plotting s |}.

(** Line 51. *)
Definition malla (c : parametros) : resultado (list float) :=
  arange 0 (duracion c + delta_t c) (delta_t c).

Definition estado_tras (c : parametros) (tiempo : list float) (k : nat)
  : resultado estado :=
  s0 ← inicial (length tiempo);
  bucle c tiempo (seq 1 k) s0.

Definition simular_air_fryer (c : parametros) : resultado series :=
  tiempo ← malla c;
  let num_pasos := length tiempo in
  s ← estado_tras c tiempo (num_pasos - 1);
  Ok (empaquetar tiempo s).

(** The cells of index [j] in the six arrays of a state, and in the
    returned series. *)
Definition celdas (s : estado) (j : nat) :=
  (theta_o s !! j, theta_controlador s !! j, f s !! j,
   error s !! j, p_total s !! j, effective_error_for_plotting s !! j).

Definition celdas_series (r : series) (j : nat) :=
  (s_theta_o r !! j, s_theta_controlador r !! j, s_f r !! j,
   s_error r !! j, s_p_total r !! j, s_effective_error r !! j).

(** Index [i] is within each of the six arrays. *)
Definition cabe (i : nat) (s : estado) : Prop :=
  (i < length (theta_o s))%nat /\ (i < length (theta_controlador s))%nat /\
  (i < length (f s))%nat /\ (i < length (error s))%nat /\
  (i < length (p_total s))%nat /\
  (i < length (effective_error_for_plotting s))%nat.

(** The state an iteration at index [i] leaves behind when nothing is
    raised. *)
Definition siguiente (c : parametros) (s : estado) (i : nat)
    (prev t_i : float) : estado :=
  let error_i := theta_i c - prev in
  let effective_error := error_efectivo (deadband_threshold c) error_i in
  let integral' := acumular (integral_error s) effective_error (delta_t c) in
  let derivada_error := derivada effective_error (ultimo_error s) (delta_t c) in
  let theta_c := saturar (salida_pid c effective_error integral' derivada_error) in
  let p := perturbacion_actual (perturbaciones_data c) t_i in
  {| theta_o := <[i := piso (euler c (1 / tau_s c) theta_c prev p)]> (theta_o s);
     theta_controlador := <[i := theta_c]> (theta_controlador s);
     f := <[i := prev]> (f s);
     error := <[i := error_i]> (error s);
     p_total := <[i := p]> (p_total s);
     effective_error_for_plotting :=
       <[i := effective_error]> (effective_error_for_plotting s);
     integral_error := integral';
     ultimo_error := effective_error |}.

(** The series of a run, empty when it raised. *)
Definition resultado_de (c : parametros) : series :=
  match simular_air_fryer c with
  | Ok r => r
  | Raise _ => Series [] [] [] [] [] [] []
  end.

(** All six arrays of a state have [n] cells. *)
Definition bien_formado (n : nat) (s : estado) : Prop :=
  length (theta_o s) = n /\ length (theta_controlador s) = n /\
  length (f s) = n /\ length (error s) = n /\
  length (p_total s) = n /\ length (effective_error_for_plotting s) = n.

(** The cell of index [k] of a time grid of step [delta_t] from 0, as
    [arange] fills it. *)
Definition instante (dt : float) (k : nat) : float :=
  match k with
  | O => 0
  | S O => 0 + dt
  | _ => 0 + de_indice k * ((0 + dt) - 0)
  end.

(** The reference scenario over [d] seconds. *)
Definition escenario (d : float) : parametros :=
  {| theta_i := 180; kp_c := 2; ki_c := 0.001; kd_c := 5;
     tau_s := 175; delta_t := 1; duracion := d; deadband_threshold := 5;
     perturbaciones_data := Some [Perturbacion 600 (-2) 40] |}.

(** Finite gains whose products with the first error overflow:
    [1e308 * 160] is [+inf], [-1e308 * 160] is [-inf], and their sum is
    NaN. *)
Definition ganancias_enormes : parametros :=
  {| theta_i := 180; kp_c := 1e308; ki_c := 0.001; kd_c := -1e308;
     tau_s := 175; delta_t := 1; duracion := 1; deadband_threshold := 5;
     perturbaciones_data := None |}.

(** The reference gains under one heating disturbance of magnitude
    [1e308] over the first three steps. *)
Definition perturbacion_enorme : parametros :=
  {| theta_i := 180; kp_c := 2; ki_c := 0.001; kd_c := 5;
     tau_s := 175; delta_t := 1; duracion := 3; deadband_threshold := 5;
     perturbaciones_data := Some [Perturbacion 1 1e308 3] |}.

End B64.

(** * Proofs *)

(** ** The exception monad and the array primitives *)

Lemma bind_Ok {A B} (m : resultado A) (k : A -> resultado B) b :
  m ≫= k = Ok b -> exists a, m = Ok a /\ k a = Ok b.
Proof. destruct m as [a|e]; simpl; [eauto | discriminate]. Qed.

Lemma setitem_Ok a i v a' :
  setitem a i v = Ok a' -> (i < length a)%nat /\ a' = <[i := v]> a.
Proof.
  unfold setitem. destruct (Nat.ltb_spec i (length a)); [|discriminate].
  intros [= <-]. auto.
Qed.

Lemma setitem_lt a i v :
  (i < length a)%nat -> setitem a i v = Ok (<[i := v]> a).
Proof.
  intros Hi. unfold setitem. destruct (Nat.ltb_spec i (length a)); [done | lia].
Qed.

Lemma getitem_Ok a i x : getitem a i = Ok x -> a !! i = Some x.
Proof. unfold getitem. destruct (a !! i); [intros [= ->]; done | discriminate]. Qed.

Lemma getitem_lt a i :
  (i < length a)%nat -> exists x, a !! i = Some x /\ getitem a i = Ok x.
Proof.
  intros Hi. destruct (lookup_lt_is_Some_2 a i Hi) as [x Hx].
  exists x. unfold getitem. rewrite Hx. auto.
Qed.

Lemma dividir_Ok x y q :
  dividir x y = Ok q -> Qeq_bool y 0 = false /\ q = x / y.
Proof.
  unfold dividir. destruct (Qeq_bool y 0); [discriminate | intros [= <-]; auto].
Qed.

Tactic Notation "des_bind" hyp(H) "as" ident(a) ident(Ha) :=
  apply bind_Ok in H; destruct H as (a & Ha & H).

(** ** One iteration *)

Lemma paso_Ok c tiempo s i s' :
  paso c tiempo s i = Ok s' ->
  exists prev t_i,
    theta_o s !! (i - 1)%nat = Some prev /\
    tiempo !! i = Some t_i /\
    Qeq_bool (tau_s c) 0 = false /\
    cabe i s /\
    s' = siguiente c s i prev t_i.
Proof.
  unfold paso. intros H.
  des_bind H as prev Hprev. apply getitem_Ok in Hprev.
  des_bind H as a1 H1. apply setitem_Ok in H1 as [? ->].
  des_bind H as a2 H2. apply setitem_Ok in H2 as [? ->].
  des_bind H as a3 H3. apply setitem_Ok in H3 as [? ->].
  des_bind H as a4 H4. apply setitem_Ok in H4 as [? ->].
  des_bind H as t_i Hti. apply getitem_Ok in Hti.
  des_bind H as a5 H5. apply setitem_Ok in H5 as [? ->].
  des_bind H as a6 H6. apply dividir_Ok in H6 as [? ->].
  des_bind H as a7 H7. apply setitem_Ok in H7 as [? ->].
  injection H as <-.
  exists prev, t_i. unfold cabe, siguiente. repeat split; assumption.
Qed.

Lemma paso_total c tiempo s i :
  cabe i s -> (i < length tiempo)%nat -> Qeq_bool (tau_s c) 0 = false ->
  exists prev t_i,
    theta_o s !! (i - 1)%nat = Some prev /\
    tiempo !! i = Some t_i /\
    paso c tiempo s i = Ok (siguiente c s i prev t_i).
Proof.
  intros (H1 & H2 & H3 & H4 & H5 & H6) Ht Htau.
  destruct (getitem_lt (theta_o s) (i - 1)) as (prev & Hp & Hgp); [lia|].
  destruct (getitem_lt tiempo i Ht) as (t_i & Hti & Hgt).
  exists prev, t_i. split; [done|]. split; [done|].
  unfold paso. rewrite Hgp. simpl.
  rewrite (setitem_lt (f s)) by done. simpl.
  rewrite (setitem_lt (error s)) by done. simpl.
  rewrite (setitem_lt (effective_error_for_plotting s)) by done. simpl.
  rewrite (setitem_lt (theta_controlador s)) by done. simpl.
  rewrite Hgt. simpl.
  rewrite (setitem_lt (p_total s)) by done. simpl.
  unfold dividir. rewrite Htau. simpl.
  rewrite (setitem_lt (theta_o s)) by done. simpl.
  reflexivity.
Qed.


Lemma siguiente_bien_formado c s i prev t_i n :
  bien_formado n s -> bien_formado n (siguiente c s i prev t_i).
Proof.
  unfold bien_formado, siguiente. simpl. rewrite !length_insert. done.
Qed.

Lemma siguiente_otras c s i prev t_i j :
  j <> i -> celdas (siguiente c s i prev t_i) j = celdas s j.
Proof.
  intros Hj. unfold celdas, siguiente. simpl.
  rewrite !list_lookup_insert_ne by done. reflexivity.
Qed.

Lemma bien_formado_cabe n s i : bien_formado n s -> (i < n)%nat -> cabe i s.
Proof. unfold bien_formado, cabe. intros (-> & -> & -> & -> & -> & ->). tauto. Qed.

(** ** The loop *)

Lemma bucle_app c tiempo l1 l2 s :
  bucle c tiempo (l1 ++ l2) s = bucle c tiempo l1 s ≫= bucle c tiempo l2.
Proof.
  revert s. induction l1 as [|i l1 IH]; intros s; simpl; [done|].
  destruct (paso c tiempo s i) as [s'|e]; simpl; [apply IH | done].
Qed.

Lemma inicial_Ok n s :
  inicial n = Ok s ->
  (0 < n)%nat /\
  s = {| theta_o := <[0%nat := AMBIENT_TEMPERATURE]> (zeros n);
         theta_controlador := zeros n; f := zeros n; error := zeros n;
         p_total := zeros n; effective_error_for_plotting := zeros n;
         integral_error := 0; ultimo_error := 0 |}.
Proof.
  unfold inicial. intros H. des_bind H as a Ha.
  apply setitem_Ok in Ha as [Hn ->]. injection H as <-.
  unfold zeros in Hn. rewrite length_replicate in Hn. auto.
Qed.

Lemma inicial_total n :
  (0 < n)%nat -> exists s, inicial n = Ok s.
Proof.
  intros Hn. unfold inicial. rewrite setitem_lt.
  - simpl. eauto.
  - unfold zeros. rewrite length_replicate. done.
Qed.

Lemma inicial_vacio : inicial 0 = Raise IndexError.
Proof. reflexivity. Qed.

Lemma inicial_bien_formado n s : inicial n = Ok s -> bien_formado n s.
Proof.
  intros H. apply inicial_Ok in H as [_ ->].
  unfold bien_formado, zeros. simpl.
  rewrite length_insert, !length_replicate. done.
Qed.

Lemma estado_tras_S c tiempo k :
  estado_tras c tiempo (S k) =
  estado_tras c tiempo k ≫= (fun s => paso c tiempo s (S k)).
Proof.
  unfold estado_tras. rewrite seq_S.
  destruct (inicial (length tiempo)) as [s0|e]; [|done].
  change (bucle c tiempo (seq 1 k ++ [S k]) s0 =
          bucle c tiempo (seq 1 k) s0 ≫= (fun s => paso c tiempo s (S k))).
  rewrite bucle_app.
  destruct (bucle c tiempo (seq 1 k) s0) as [s|e]; simpl; [|done].
  destruct (paso c tiempo s (S k)); done.
Qed.

Lemma estado_tras_S_Ok c tiempo k s :
  estado_tras c tiempo (S k) = Ok s ->
  exists s_prev, estado_tras c tiempo k = Ok s_prev /\
                 paso c tiempo s_prev (S k) = Ok s.
Proof. rewrite estado_tras_S. apply bind_Ok. Qed.

Lemma estado_tras_bien_formado c tiempo k s :
  estado_tras c tiempo k = Ok s -> bien_formado (length tiempo) s.
Proof.
  revert s. induction k as [|k IH]; intros s H.
  - unfold estado_tras in H. des_bind H as s0 H0. injection H as <-.
    by apply inicial_bien_formado.
  - apply estado_tras_S_Ok in H as (sp & Hsp & Hp).
    apply paso_Ok in Hp as (prev & t_i & _ & _ & _ & _ & ->).
    apply siguiente_bien_formado. by apply IH.
Qed.

(** A successful run went through every earlier state, and later
    iterations leave the cells already written untouched. *)
Lemma estado_tras_previo c tiempo k s j :
  estado_tras c tiempo k = Ok s -> (j <= k)%nat ->
  exists s_j, estado_tras c tiempo j = Ok s_j /\
              forall m, (m <= j)%nat -> celdas s m = celdas s_j m.
Proof.
  revert s. induction k as [|k IH]; intros s H Hj.
  - assert (j = 0%nat) as -> by lia. eauto.
  - destruct (decide (j = S k)) as [->|Hne]; [eauto|].
    apply estado_tras_S_Ok in H as (sp & Hsp & Hp).
    destruct (IH sp Hsp) as (s_j & Hs_j & Hc); [lia|].
    exists s_j. split; [done|]. intros m Hm.
    apply paso_Ok in Hp as (prev & t_i & _ & _ & _ & _ & ->).
    rewrite siguiente_otras by lia. by apply Hc.
Qed.

Lemma estado_tras_total c tiempo k :
  (k < length tiempo)%nat -> Qeq_bool (tau_s c) 0 = false ->
  exists s, estado_tras c tiempo k = Ok s.
Proof.
  intros Hk Htau. induction k as [|k IH].
  - unfold estado_tras. destruct (inicial_total (length tiempo)) as [s ->]; [lia|].
    simpl. eauto.
  - destruct IH as [sp Hsp]; [lia|].
    pose proof (estado_tras_bien_formado _ _ _ _ Hsp) as Hbf.
    destruct (paso_total c tiempo sp (S k)) as (prev & t_i & _ & _ & Hp);
      [by eapply bien_formado_cabe | done | done |].
    rewrite estado_tras_S, Hsp. simpl. eauto.
Qed.

Lemma estado_tras_cero c tiempo :
  (0 < length tiempo)%nat -> exists s, estado_tras c tiempo 0 = Ok s.
Proof.
  intros Hn. unfold estado_tras.
  destruct (inicial_total (length tiempo) Hn) as [s ->]. simpl. eauto.
Qed.



(** ** The time grid and the whole run *)

Lemma malla_Ok c tiempo :
  malla c = Ok tiempo ->
  Qeq_bool (delta_t c) 0 = false /\
  length tiempo = num_pasos c /\
  forall i, (i < num_pasos c)%nat ->
    tiempo !! i = Some (0 + inject_Z (Z.of_nat i) * delta_t c).
Proof.
  unfold malla, arange, num_pasos.
  destruct (Qeq_bool (delta_t c) 0); [discriminate|].
  intros [= <-]. split; [done|]. split.
  - by rewrite length_fmap, length_seq.
  - intros i Hi. rewrite list_lookup_fmap, lookup_seq_lt by done. reflexivity.
Qed.

Lemma malla_total c :
  Qeq_bool (delta_t c) 0 = false -> exists tiempo, malla c = Ok tiempo.
Proof. intros H. unfold malla, arange. rewrite H. eauto. Qed.

Lemma simular_Ok c r :
  simular_air_fryer c = Ok r ->
  exists s,
    malla c = Ok (s_tiempo r) /\
    estado_tras c (s_tiempo r) (length (s_tiempo r) - 1) = Ok s /\
    r = empaquetar (s_tiempo r) s /\
    (0 < length (s_tiempo r))%nat.
Proof.
  unfold simular_air_fryer. intros H.
  des_bind H as tiempo Ht. des_bind H as s Hs. injection H as <-.
  exists s. simpl. repeat split; try done.
  unfold estado_tras in Hs. des_bind Hs as s0 H0.
  by apply inicial_Ok in H0 as [? _].
Qed.

(** Every intermediate state of a successful run, and the cells of the
    result it already fixes. *)
Lemma simular_en c r k :
  simular_air_fryer c = Ok r -> (k < length (s_tiempo r))%nat ->
  exists s_k,
    estado_tras c (s_tiempo r) k = Ok s_k /\
    forall m, (m <= k)%nat -> celdas_series r m = celdas s_k m.
Proof.
  intros H Hk. apply simular_Ok in H as (s & _ & Hs & Hr & _).
  destruct (estado_tras_previo _ _ _ _ k Hs) as (s_k & Hs_k & Hc); [lia|].
  exists s_k. split; [done|]. intros m Hm.
  rewrite <- (Hc m Hm), Hr. reflexivity.
Qed.

(** The iteration that produced index [i] of a successful run. *)
Lemma simular_paso c r i :
  simular_air_fryer c = Ok r -> (1 <= i < length (s_tiempo r))%nat ->
  exists s_prev s_i prev t_i,
    estado_tras c (s_tiempo r) (i - 1) = Ok s_prev /\
    estado_tras c (s_tiempo r) i = Ok s_i /\
    s_theta_o r !! (i - 1)%nat = Some prev /\
    s_tiempo r !! i = Some t_i /\
    s_i = siguiente c s_prev i prev t_i /\
    Qeq_bool (tau_s c) 0 = false /\
    cabe i s_prev /\
    celdas_series r i = celdas s_i i /\
    celdas_series r (i - 1) = celdas s_prev (i - 1).
Proof.
  intros H Hi.
  destruct (simular_en c r i H) as (s_i & Hs_i & Hc_i); [lia|].
  destruct i as [|k]; [lia|].
  destruct (estado_tras_S_Ok _ _ _ _ Hs_i) as (s_prev & Hs_prev & Hp).
  apply paso_Ok in Hp as (prev & t_i & Hprev & Hti & Htau & Hcabe & ->).
  replace (S k - 1)%nat with k by lia.
  assert (celdas_series r k = celdas s_prev k) as Hk.
  { rewrite Hc_i by lia. apply siguiente_otras. lia. }
  exists s_prev, (siguiente c s_prev (S k) prev t_i), prev, t_i.
  replace (S k - 1)%nat with k in Hprev by lia.
  split; [done|]. split; [done|]. split.
  { unfold celdas_series, celdas in Hk. injection Hk as -> _ _ _ _ _. done. }
  split; [done|]. split; [done|]. split; [done|]. split; [done|].
  split; [by apply Hc_i | done].
Qed.

Lemma simular_total c :
  Qeq_bool (delta_t c) 0 = false -> (1 <= num_pasos c)%nat ->
  (Qeq_bool (tau_s c) 0 = false \/ num_pasos c = 1%nat) ->
  exists r, simular_air_fryer c = Ok r.
Proof.
  intros Hdt Hn Htau. destruct (malla_total c Hdt) as [tiempo Ht].
  destruct (malla_Ok _ _ Ht) as (_ & Hlen & _).
  assert (exists s, estado_tras c tiempo (length tiempo - 1) = Ok s) as [s Hs].
  { destruct Htau as [Htau|H1].
    - apply estado_tras_total; [lia | done].
    - rewrite Hlen, H1. simpl. apply estado_tras_cero. lia. }
  unfold simular_air_fryer. rewrite Ht. simpl. rewrite Hs. simpl. eauto.
Qed.

(** ** Arithmetic of the pieces *)

Lemma Qlt_bool_iff x y : Qlt_bool x y = true <-> x < y.
Proof.
  unfold Qlt_bool. rewrite negb_true_iff, <- not_true_iff_false, Qle_bool_iff.
  split; [apply Qnot_le_lt | apply Qlt_not_le].
Qed.








(** The cells an iteration writes at its own index. *)
Lemma siguiente_en c s i prev t_i :
  cabe i s ->
  celdas (siguiente c s i prev t_i) i =
  let error_i := theta_i c - prev in
  let effective_error := error_efectivo (deadband_threshold c) error_i in
  let integral' := acumular (integral_error s) effective_error (delta_t c) in
  let theta_c :=
    saturar (salida_pid c effective_error integral'
               (derivada effective_error (ultimo_error s) (delta_t c))) in
  let p := perturbacion_actual (perturbaciones_data c) t_i in
  (Some (piso (euler c (1 / tau_s c) theta_c prev p)), Some theta_c, Some prev,
   Some error_i, Some p, Some effective_error).
Proof.
  intros (H1 & H2 & H3 & H4 & H5 & H6). unfold celdas, siguiente. simpl.
  rewrite !list_lookup_insert_eq by done. reflexivity.
Qed.

(** Index 0 of a successful run. *)
Lemma simular_cero c r :
  simular_air_fryer c = Ok r ->
  s_theta_o r !! 0%nat = Some AMBIENT_TEMPERATURE /\
  s_theta_controlador r !! 0%nat = Some 0 /\
  s_f r !! 0%nat = Some 0 /\
  s_error r !! 0%nat = Some 0 /\
  s_p_total r !! 0%nat = Some 0 /\
  s_effective_error r !! 0%nat = Some 0 /\
  exists s0, estado_tras c (s_tiempo r) 0 = Ok s0 /\
             integral_error s0 = 0 /\ ultimo_error s0 = 0.
Proof.
  intros H. pose proof (simular_Ok _ _ H) as (_ & _ & _ & _ & Hn).
  destruct (simular_en c r 0 H Hn) as (s0 & Hs0 & Hc).
  specialize (Hc 0%nat (Nat.le_refl _)).
  pose proof Hs0 as Hs0'. unfold estado_tras in Hs0'.
  des_bind Hs0' as s0' Hi. injection Hs0' as <-.
  apply inicial_Ok in Hi as [_ ->].
  unfold celdas_series, celdas, zeros in Hc. simpl in Hc.
  rewrite list_lookup_insert_eq in Hc by (by rewrite length_replicate).
  rewrite !lookup_replicate_2 in Hc by done.
  injection Hc as -> -> -> -> -> ->.
  repeat (split; [done|]). eauto.
Qed.

(** * The claims *)

(** C9. Index 0 of a run: the plant starts at the ambient temperature,
    the controller output, feedback, raw error, disturbance and
    effective-error series are 0 there, and the loop is entered with the
    integral accumulator and the previous effective error both 0. *)
Theorem inicializacion c r :
  simular_air_fryer c = Ok r ->
  s_theta_o r !! 0%nat = Some AMBIENT_TEMPERATURE /\
  s_theta_controlador r !! 0%nat = Some 0 /\
  s_f r !! 0%nat = Some 0 /\
  s_error r !! 0%nat = Some 0 /\
  s_p_total r !! 0%nat = Some 0 /\
  s_effective_error r !! 0%nat = Some 0 /\
  exists s0, estado_tras c (s_tiempo r) 0 = Ok s0 /\
             integral_error s0 = 0 /\ ultimo_error s0 = 0.
Proof. exact (simular_cero c r). Qed.

Lemma inicializacion_ejemplo :
  s_theta_o (resultado_de (escenario 2)) !! 0%nat = Some AMBIENT_TEMPERATURE /\
  s_theta_controlador (resultado_de (escenario 2)) !! 0%nat = Some 0 /\
  s_f (resultado_de (escenario 2)) !! 0%nat = Some 0 /\
  s_error (resultado_de (escenario 2)) !! 0%nat = Some 0 /\
  s_p_total (resultado_de (escenario 2)) !! 0%nat = Some 0 /\
  s_effective_error (resultado_de (escenario 2)) !! 0%nat = Some 0 /\
  exists s0,
    estado_tras (escenario 2) (s_tiempo (resultado_de (escenario 2))) 0 = Ok s0 /\
    integral_error s0 = 0 /\ ultimo_error s0 = 0.
Proof.
  apply (inicializacion (escenario 2) (resultado_de (escenario 2))).
  vm_compute. reflexivity.
Defined.









(** ** Disturbance windows *)

Lemma activa_iff t q :
  activa t q = true <-> p_tiempo q <= t < p_tiempo q + p_duracion q.
Proof.
  unfold activa. rewrite andb_true_iff, Qle_bool_iff, Qlt_bool_iff. done.
Qed.










(** ** Counting the samples *)








(** C4, as stated, fails: with a duration of 2.5 and a step of 1 the
    time grid is 0, 1, 2, 3, four samples, where
    [floor(2.5 / 1) + 1] is three. *)
Lemma cantidad_de_muestras_no_es_piso :
  ~ (forall c r,
       0 < delta_t c -> 0 < tau_s c -> 0 <= duracion c ->
       simular_air_fryer c = Ok r ->
       length (s_tiempo r) =
       (Z.to_nat (Qfloor (duracion c / delta_t c)) + 1)%nat).
Proof.
  intros H.
  specialize (H (escenario (5 # 2)) (resultado_de (escenario (5 # 2)))).
  assert (4 = 3)%nat as Habs; [|discriminate].
  apply H.
  - reflexivity.
  - reflexivity.
  - apply Qle_bool_iff. reflexivity.
  - vm_compute. reflexivity.
Qed.

(** The outcomes of a run on malformed arguments, one input each. *)
Example paso_cero_falla :
  simular_air_fryer
    (Parametros 180 2 (1 # 1000) 5 175 0 10 5 None) = Raise ArangeError.
Proof. reflexivity. Qed.

Example duracion_muy_negativa_falla :
  simular_air_fryer
    (Parametros 180 2 (1 # 1000) 5 175 1 (-1) 5 None) = Raise IndexError.
Proof. reflexivity. Qed.

Example tau_cero_falla :
  simular_air_fryer
    (Parametros 180 2 (1 # 1000) 5 0 1 10 5 None) = Raise ZeroDivisionError.
Proof. vm_compute. reflexivity. Qed.

Example duracion_negativa_aceptada :
  s_theta_o <$> simular_air_fryer
    (Parametros 180 2 (1 # 1000) 5 175 1 (-1 # 2) 5 None) = Ok [20].
Proof. vm_compute. reflexivity. Qed.

Example tau_cero_una_muestra_aceptada :
  s_theta_o <$> simular_air_fryer
    (Parametros 180 2 (1 # 1000) 5 0 1 0 5 None) = Ok [20].
Proof. vm_compute. reflexivity. Qed.

(** ** The reference scenario *)

Lemma simular_celdas_tras c r k m :
  simular_air_fryer c = Ok r -> (k < length (s_tiempo r))%nat -> (m <= k)%nat ->
  s_tiempo r = malla_de c /\
  celdas_series r m = celdas_tras c (malla_de c) k m.
Proof.
  intros H Hk Hm.
  destruct (simular_en c r k H Hk) as (s_k & Hs_k & Hc).
  apply simular_Ok in H as (_ & Hmalla & _).
  assert (s_tiempo r = malla_de c) as Ht by (unfold malla_de; by rewrite Hmalla).
  split; [done|]. rewrite (Hc m Hm). unfold celdas_tras.
  rewrite <- Ht, Hs_k. reflexivity.
Qed.

Lemma simular_escalares_tras c r k s_k :
  simular_air_fryer c = Ok r ->
  estado_tras c (s_tiempo r) k = Ok s_k ->
  escalares_tras c (malla_de c) k = Some (integral_error s_k, ultimo_error s_k).
Proof.
  intros H Hs. apply simular_Ok in H as (_ & Hmalla & _).
  unfold escalares_tras, malla_de. rewrite Hmalla, Hs. reflexivity.
Qed.

Ltac evaluar t :=
  let v := eval vm_compute in t in
  let E := fresh "E" in
  assert (E : t = v) by (vm_compute; reflexivity);
  rewrite E in *; clear E.

Ltac celdas_en r Hr Hlen m :=
  let Hm := fresh "Hm" in
  destruct (simular_celdas_tras _ r 8 m Hr) as [_ Hm];
  [rewrite Hlen; lia | lia |];
  match type of Hm with
  | _ = ?t => evaluar t
  end;
  unfold celdas_series in Hm;
  let A := fresh "Hto" in let B := fresh "Htc" in let C := fresh "Hf" in
  let D := fresh "Her" in let E := fresh "Hpt" in let F := fresh "Hef" in
  injection Hm as A B C D E F.

(** C10. The reference scenario (setpoint 180, Kp 2, Ki 0.001, Kd 5,
    tau 175, step 1, duration 3600, deadband 5, ambient 20, one
    disturbance (600, -2, 40)) runs to completion over 3601 samples;
    the plant starts at 20; at step 1 the effective error is
    180 - 20 = 160, the raw output is
    2*160 + 0.001*160*1 + 5*160 = 1120.16 and the stored output is its
    saturation, 200; over the first eight steps the plant temperature is
    strictly increasing while the error stays above the deadband. *)
Theorem escenario_de_referencia :
  exists r s0 s1,
    simular_air_fryer (escenario 3600) = Ok r /\
    length (s_tiempo r) = 3601%nat /\
    s_theta_o r !! 0%nat = Some 20 /\
    estado_tras (escenario 3600) (s_tiempo r) 0 = Ok s0 /\
    estado_tras (escenario 3600) (s_tiempo r) 1 = Ok s1 /\
    s_error r !! 1%nat = Some 160 /\
    s_effective_error r !! 1%nat = Some 160 /\
    integral_error s1 = 160 /\
    (let raw :=
       salida_pid (escenario 3600) 160 (integral_error s1)
         (derivada 160 (ultimo_error s0) (delta_t (escenario 3600))) in
     raw == 2 * 160 + (1 # 1000) * 160 * 1 + 5 * 160 /\
     raw == 112016 # 100 /\
     s_theta_controlador r !! 1%nat = Some (saturar raw) /\
     saturar raw = 200) /\
    (forall i, (i < 8)%nat ->
       exists a b e,
         s_theta_o r !! i = Some a /\ s_theta_o r !! S i = Some b /\ a < b /\
         s_error r !! S i = Some e /\ deadband_threshold (escenario 3600) < e).
Proof.
  destruct (simular_total (escenario 3600)) as [r Hr];
    [reflexivity | vm_compute; lia | left; reflexivity |].
  assert (length (s_tiempo r) = 3601%nat) as Hlen.
  { destruct (simular_Ok _ _ Hr) as (_ & Hm & _).
    apply malla_Ok in Hm as (_ & -> & _). vm_compute. reflexivity. }
  destruct (simular_paso _ r 1 Hr) as
    (s0 & s1 & prev & t_1 & Hs0 & Hs1 & _ & _ & Hsig & _ & _ & _ & _);
    [rewrite Hlen; lia|].
  simpl in Hs0.
  pose proof (simular_escalares_tras _ _ _ _ Hr Hs0) as Hesc0.
  pose proof (simular_escalares_tras _ _ _ _ Hr Hs1) as Hesc1.
  match type of Hesc0 with ?t = _ => evaluar t end.
  match type of Hesc1 with ?t = _ => evaluar t end.
  injection Hesc0 as HI0 HU0. injection Hesc1 as HI1 HU1.
  celdas_en r Hr Hlen 0%nat. celdas_en r Hr Hlen 1%nat.
  celdas_en r Hr Hlen 2%nat. celdas_en r Hr Hlen 3%nat.
  celdas_en r Hr Hlen 4%nat. celdas_en r Hr Hlen 5%nat.
  celdas_en r Hr Hlen 6%nat. celdas_en r Hr Hlen 7%nat.
  celdas_en r Hr Hlen 8%nat.
  exists r, s0, s1.
  split; [done|]. split; [done|]. split; [done|]. split; [done|].
  split; [done|]. split; [done|]. split; [done|]. split; [done|].
  split.
  - cbv zeta. rewrite <- HI1, <- HU0.
    split; [vm_compute; reflexivity|]. split; [vm_compute; reflexivity|].
    split; [|vm_compute; reflexivity].
    etransitivity; [eassumption|]. f_equal.
  - intros i Hi.
    do 8 (destruct i as [|i];
          [eexists _, _, _;
           split; [eassumption|]; split; [eassumption|];
           split; [vm_compute; reflexivity|];
           split; [eassumption | vm_compute; reflexivity] |]).
    lia.
Qed.

(** * Further properties of the simulation *)










(** ** Bounds on the plant temperature *)







(** ** Causality: what the first samples depend on *)

Lemma inicial_celdas n s :
  inicial n = Ok s ->
  celdas s 0 = (Some AMBIENT_TEMPERATURE, Some 0, Some 0, Some 0, Some 0, Some 0)
  /\ integral_error s = 0 /\ ultimo_error s = 0.
Proof.
  intros H. apply inicial_Ok in H as [Hn ->]. unfold celdas, zeros. simpl.
  rewrite list_lookup_insert_eq by (by rewrite length_replicate).
  rewrite !lookup_replicate_2 by done. done.
Qed.

(** Two loops with the same controller, plant, step and deadband, whose
    time grids and disturbance sums agree up to index [k], have written
    the same cells up to [k] and carry the same scalars, whatever the
    lengths of their arrays. *)
Lemma estado_tras_coincide c c' tiempo tiempo' k :
  mismos_ajustes c c' ->
  (forall i, (1 <= i <= k)%nat -> tiempo !! i = tiempo' !! i) ->
  (forall i t, (1 <= i <= k)%nat -> tiempo !! i = Some t ->
     perturbacion_actual (perturbaciones_data c) t
     = perturbacion_actual (perturbaciones_data c') t) ->
  forall s s',
    estado_tras c tiempo k = Ok s -> estado_tras c' tiempo' k = Ok s' ->
    (forall m, (m <= k)%nat -> celdas s m = celdas s' m) /\
    integral_error s = integral_error s' /\ ultimo_error s = ultimo_error s'.
Proof.
  intros Haj Ht Hp. induction k as [|k IH]; intros s s' Hs Hs'.
  - unfold estado_tras in Hs, Hs'.
    des_bind Hs as s0 H0. injection Hs as <-.
    des_bind Hs' as s0' H0'. injection Hs' as <-.
    apply inicial_celdas in H0 as (Hc & -> & ->).
    apply inicial_celdas in H0' as (Hc' & -> & ->).
    split; [|done]. intros m Hm. assert (m = 0%nat) as -> by lia. congruence.
  - apply estado_tras_S_Ok in Hs as (sp & Hsp & Hpaso).
    apply estado_tras_S_Ok in Hs' as (sp' & Hsp' & Hpaso').
    destruct (IH) with (s := sp) (s' := sp') as (Hc & HI & HU); try done.
    { intros i Hi. apply Ht. lia. }
    { intros i t Hi. apply Hp. lia. }
    apply paso_Ok in Hpaso as (prev & t_i & Hprev & Hti & _ & Hcabe & ->).
    apply paso_Ok in Hpaso' as (prev' & t_i' & Hprev' & Hti' & _ & Hcabe' & ->).
    replace (S k - 1)%nat with k in Hprev, Hprev' by lia.
    assert (prev' = prev) as ->.
    { specialize (Hc k (Nat.le_refl _)). unfold celdas in Hc.
      injection Hc as Hto _ _ _ _ _. rewrite Hprev, Hprev' in Hto.
      by injection Hto. }
    assert (t_i' = t_i) as ->.
    { rewrite (Ht (S k)) in Hti by lia. rewrite Hti in Hti'. by injection Hti'. }
    pose proof (Hp (S k) t_i ltac:(lia) Hti) as Hpk.
    destruct Haj as (E1 & E2 & E3 & E4 & E5 & E6 & E7).
    split; [|split].
    + intros m Hm. destruct (decide (m = S k)) as [->|Hne].
      * rewrite !siguiente_en by done. cbv zeta.
        unfold salida_pid, euler. rewrite HI, HU, Hpk, E1, E2, E3, E4, E5, E6, E7.
        reflexivity.
      * rewrite !siguiente_otras by done. apply Hc. lia.
    + simpl. by rewrite HI, E1, E6, E7.
    + simpl. by rewrite E1, E7.
Qed.

(** X7. Extending or shortening the duration does not change the samples
    already computed: two runs that differ only in [duracion] agree, in
    all seven series, at every index both have. *)
Theorem prefijo_estable c d r r' m :
  simular_air_fryer c = Ok r ->
  simular_air_fryer (con_duracion c d) = Ok r' ->
  (m < length (s_tiempo r))%nat -> (m < length (s_tiempo r'))%nat ->
  s_tiempo r !! m = s_tiempo r' !! m /\
  s_theta_o r !! m = s_theta_o r' !! m /\
  s_theta_controlador r !! m = s_theta_controlador r' !! m /\
  s_f r !! m = s_f r' !! m /\
  s_error r !! m = s_error r' !! m /\
  s_p_total r !! m = s_p_total r' !! m /\
  s_effective_error r !! m = s_effective_error r' !! m.
Proof.
  intros H H' Hm Hm'.
  destruct (simular_en c r m H Hm) as (s & Hs & Hc).
  destruct (simular_en _ r' m H' Hm') as (s' & Hs' & Hc').
  destruct (simular_Ok _ _ H) as (_ & Hmalla & _).
  destruct (simular_Ok _ _ H') as (_ & Hmalla' & _).
  destruct (malla_Ok _ _ Hmalla) as (_ & Hlen & Hgrid).
  destruct (malla_Ok _ _ Hmalla') as (_ & Hlen' & Hgrid').
  assert (forall i, (i <= m)%nat -> s_tiempo r !! i = s_tiempo r' !! i) as Ht.
  { intros i Hi. rewrite Hgrid, Hgrid' by lia. reflexivity. }
  destruct (estado_tras_coincide c (con_duracion c d)
              (s_tiempo r) (s_tiempo r') m) with (s := s) (s' := s')
    as (Hcc & _); try done.
  { intros i Hi. apply Ht. lia. }
  split; [apply Ht; lia|].
  pose proof (Hc m (Nat.le_refl _)) as E. pose proof (Hc' m (Nat.le_refl _)) as E'.
  rewrite <- (Hcc m (Nat.le_refl _)), <- E in E'.
  unfold celdas_series in E'. injection E' as -> -> -> -> -> ->. done.
Qed.

Lemma prefijo_estable_ejemplo :
  s_tiempo (resultado_de (escenario 2)) !! 2%nat
    = s_tiempo (resultado_de (escenario 4)) !! 2%nat /\
  s_theta_o (resultado_de (escenario 2)) !! 2%nat
    = s_theta_o (resultado_de (escenario 4)) !! 2%nat /\
  s_theta_controlador (resultado_de (escenario 2)) !! 2%nat
    = s_theta_controlador (resultado_de (escenario 4)) !! 2%nat /\
  s_f (resultado_de (escenario 2)) !! 2%nat
    = s_f (resultado_de (escenario 4)) !! 2%nat /\
  s_error (resultado_de (escenario 2)) !! 2%nat
    = s_error (resultado_de (escenario 4)) !! 2%nat /\
  s_p_total (resultado_de (escenario 2)) !! 2%nat
    = s_p_total (resultado_de (escenario 4)) !! 2%nat /\
  s_effective_error (resultado_de (escenario 2)) !! 2%nat
    = s_effective_error (resultado_de (escenario 4)) !! 2%nat.
Proof.
  apply (prefijo_estable (escenario 2) 4
           (resultado_de (escenario 2)) (resultado_de (escenario 4)) 2).
  - vm_compute. reflexivity.
  - vm_compute. reflexivity.
  - vm_compute. lia.
  - vm_compute. lia.
Defined.

Lemma perturbacion_inactiva l1 q l2 t :
  activa t q = false ->
  perturbacion_actual (Some (l1 ++ q :: l2)) t
  = perturbacion_actual (Some (l1 ++ l2)) t.
Proof.
  intros Hq. simpl. rewrite !fold_left_app. simpl. by rewrite Hq.
Qed.


Lemma activa_sin_duracion t q : p_duracion q <= 0 -> activa t q = false.
Proof.
  intros H. apply not_true_iff_false. rewrite activa_iff. lra.
Qed.



Lemma paso_con_perturbaciones c data tiempo s i :
  (forall t, perturbacion_actual data t
             = perturbacion_actual (perturbaciones_data c) t) ->
  paso (con_perturbaciones c data) tiempo s i = paso c tiempo s i.
Proof.
  intros Hp. unfold paso.
  destruct (getitem (theta_o s) (i - 1)) as [prev|]; simpl; [|done].
  destruct (setitem (f s) i prev); simpl; [|done].
  destruct (setitem (error s) i _); simpl; [|done].
  destruct (setitem (effective_error_for_plotting s) i _); simpl; [|done].
  destruct (setitem (theta_controlador s) i _); simpl; [|done].
  destruct (getitem tiempo i) as [t_i|]; simpl; [|done].
  rewrite Hp. reflexivity.
Qed.

Lemma bucle_con_perturbaciones c data tiempo l s :
  (forall t, perturbacion_actual data t
             = perturbacion_actual (perturbaciones_data c) t) ->
  bucle (con_perturbaciones c data) tiempo l s = bucle c tiempo l s.
Proof.
  intros Hp. revert s. induction l as [|i l IH]; intros s; simpl; [done|].
  rewrite paso_con_perturbaciones by done.
  destruct (paso c tiempo s i); simpl; [apply IH | done].
Qed.

(** X9. A disturbance whose duration is zero or negative has an empty
    window: the run with it, failures included, is the run without it. *)
Theorem perturbacion_sin_duracion c l1 q l2 :
  perturbaciones_data c = Some (l1 ++ q :: l2) ->
  p_duracion q <= 0 ->
  simular_air_fryer c
  = simular_air_fryer (con_perturbaciones c (Some (l1 ++ l2))).
Proof.
  intros Hdata Hq. symmetry. unfold simular_air_fryer.
  change (malla (con_perturbaciones c (Some (l1 ++ l2)))) with (malla c).
  destruct (malla c) as [tiempo|]; simpl; [|done].
  unfold estado_tras.
  destruct (inicial (length tiempo)) as [s0|]; simpl; [|done].
  rewrite bucle_con_perturbaciones; [done|].
  intros t. rewrite Hdata. symmetry.
  by apply perturbacion_inactiva, activa_sin_duracion.
Qed.

Lemma perturbacion_sin_duracion_ejemplo :
  simular_air_fryer
    (con_perturbaciones (escenario 2)
       (Some [Perturbacion 1 (-50) 0; Perturbacion 600 (-2) 40]))
  = simular_air_fryer
      (con_perturbaciones
         (con_perturbaciones (escenario 2)
            (Some [Perturbacion 1 (-50) 0; Perturbacion 600 (-2) 40]))
         (Some ([] ++ [Perturbacion 600 (-2) 40]))).
Proof.
  apply (perturbacion_sin_duracion _ [] (Perturbacion 1 (-50) 0)
           [Perturbacion 600 (-2) 40]).
  - reflexivity.
  - apply Qle_bool_iff. reflexivity.
Defined.

(** * The caller: reading the disturbance text *)

Lemma lectura_bind_Leido {A B} (m : lectura A) (k : A -> lectura B) b :
  m ≫= k = Leido b -> exists a, m = Leido a /\ k a = Leido b.
Proof. destruct m as [a| |]; simpl; [eauto | discriminate | discriminate]. Qed.

Lemma split_no_vacio sep s : split sep s <> [].
Proof.
  induction s as [|ch s IH]; simpl; [done|].
  destruct (Ascii.eqb ch sep); [done|]. by destruct (split sep s).
Qed.

Lemma length_split sep s : length (split sep s) = S (ocurrencias sep s).
Proof.
  induction s as [|ch s IH]; simpl; [done|].
  destruct (Ascii.eqb ch sep); simpl; [by rewrite IH|].
  destruct (split sep s) eqn:E; simpl in *; [done | lia].
Qed.

Lemma ocurrencias_split sep ch s :
  ch <> sep ->
  ocurrencias ch s = sum_list (ocurrencias ch <$> split sep s).
Proof.
  intros Hne. induction s as [|x s IH]; simpl; [done|].
  destruct (Ascii.eqb_spec x sep) as [->|Hx].
  - destruct (Ascii.eqb_spec sep ch) as [->|_]; [done|]. simpl. by rewrite IH.
  - pose proof (split_no_vacio sep s) as Hs.
    destruct (split sep s) as [|y l]; [done|]. simpl in *. lia.
Qed.

Lemma split_final sep s :
  split sep (s +:+ String sep EmptyString) = split sep s ++ [EmptyString].
Proof.
  induction s as [|ch s IH]; simpl.
  - by rewrite Ascii.eqb_refl.
  - destruct (Ascii.eqb ch sep); [by rewrite IH|].
    rewrite IH. pose proof (split_no_vacio sep s) as Hs.
    by destruct (split sep s).
Qed.

Lemma leer_perturbacion_Leido float strip p_raw q :
  leer_perturbacion float strip p_raw = Leido q ->
  ocurrencias "," p_raw = 2%nat.
Proof.
  unfold leer_perturbacion. intros H.
  pose proof (length_split "," p_raw) as Hl.
  destruct (split "," p_raw) as [|a [|b [|c [|d l]]]]; try discriminate.
  simpl in Hl. lia.
Qed.

Lemma leer_perturbaciones_Leido float strip raws acc l :
  leer_perturbaciones float strip raws acc = Leido l ->
  length l = (length acc + length raws)%nat /\
  Forall (fun p_raw => ocurrencias "," p_raw = 2%nat) raws.
Proof.
  revert acc. induction raws as [|p_raw raws IH]; intros acc H; simpl in *.
  - injection H as <-. split; [lia | constructor].
  - apply lectura_bind_Leido in H as (q & Hq & H).
    apply IH in H as [Hlen Hall]. rewrite length_app in Hlen. simpl in Hlen.
    split; [lia|]. constructor; [|done].
    by eapply leer_perturbacion_Leido.
Qed.

Lemma suma_de_doses (l : list nat) :
  Forall (fun n => n = 2%nat) l -> sum_list l = (2 * length l)%nat.
Proof. induction 1 as [|n l -> _ IH]; simpl; lia. Qed.

(** X10. The text is read piece by piece: an accepted text is either blank
    (no disturbance) or holds one disturbance more than it has
    semicolons, each written with exactly two commas. *)
Theorem texto_aceptado float strip texto l :
  parsear_perturbaciones float strip texto = Leido l ->
  (strip texto = EmptyString /\ l = []) \/
  (strip texto <> EmptyString /\
   length l = S (ocurrencias ";" (strip texto)) /\
   ocurrencias "," (strip texto) = (2 * length l)%nat).
Proof.
  unfold parsear_perturbaciones. intros H.
  destruct (strip texto) as [|ch s] eqn:E.
  { injection H as <-. by left. }
  right. split; [done|].
  apply leer_perturbaciones_Leido in H as [Hlen Hall].
  rewrite length_split in Hlen. change (length []) with 0%nat in Hlen.
  split; [lia|].
  rewrite (ocurrencias_split ";" ",") by done.
  rewrite suma_de_doses.
  - rewrite length_fmap, length_split. lia.
  - by apply Forall_fmap.
Qed.

Lemma texto_aceptado_ejemplo :
  (id "600,-2.0,40;600,-2.0,40" = EmptyString /\
   [Perturbacion 600 (-2) 40; Perturbacion 600 (-2) 40] = []) \/
  (id "600,-2.0,40;600,-2.0,40" <> EmptyString /\
   length [Perturbacion 600 (-2) 40; Perturbacion 600 (-2) 40]
   = S (ocurrencias ";" (id "600,-2.0,40;600,-2.0,40")) /\
   ocurrencias "," (id "600,-2.0,40;600,-2.0,40")
   = (2 * length [Perturbacion 600 (-2) 40; Perturbacion 600 (-2) 40])%nat).
Proof.
  apply (texto_aceptado float_de_ejemplo id "600,-2.0,40;600,-2.0,40").
  vm_compute. reflexivity.
Defined.

Lemma final_vacio_rechazado float strip texto s l :
  strip texto = s +:+ ";" ->
  parsear_perturbaciones float strip texto <> Leido l.
Proof.
  intros E H. unfold parsear_perturbaciones in H. rewrite E in H.
  destruct (s +:+ ";") as [|ch s'] eqn:E'.
  { destruct s; discriminate. }
  rewrite <- E' in H. apply leer_perturbaciones_Leido in H as [_ Hall].
  change ";"%string with (String ";" EmptyString) in Hall.
  rewrite split_final in Hall. apply Forall_app in Hall as [_ Hall].
  inversion Hall as [|? ? Hbad _]. discriminate.
Qed.

(** X11. A semicolon at the end of the text leaves an empty last piece, so the
    text is never accepted: reading it ends with the format message or
    with the [ValueError] of an earlier piece. *)
Theorem punto_y_coma_final float strip texto s :
  strip texto = s +:+ ";" ->
  parsear_perturbaciones float strip texto = FormatoIncorrecto \/
  parsear_perturbaciones float strip texto = ValorNoNumerico.
Proof.
  intros E.
  destruct (parsear_perturbaciones float strip texto) as [l| |] eqn:H;
    [|by left | by right].
  exfalso. by eapply final_vacio_rechazado.
Qed.

Lemma punto_y_coma_final_ejemplo :
  parsear_perturbaciones float_de_ejemplo id "600,-2.0,40;" = FormatoIncorrecto \/
  parsear_perturbaciones float_de_ejemplo id "600,-2.0,40;" = ValorNoNumerico.
Proof.
  apply (punto_y_coma_final float_de_ejemplo id "600,-2.0,40;" "600,-2.0,40").
  reflexivity.
Defined.

Lemma ocurrencias_app ch a b :
  ocurrencias ch (a +:+ b) = (ocurrencias ch a + ocurrencias ch b)%nat.
Proof. induction a as [|x a IH]; simpl; [done|]. rewrite IH. lia. Qed.

Lemma split_sin sep x : ocurrencias sep x = 0%nat -> split sep x = [x].
Proof.
  induction x as [|ch x IH]; simpl; [done|].
  destruct (Ascii.eqb ch sep); [discriminate|]. simpl.
  intros H. by rewrite IH.
Qed.

Lemma split_antes sep x resto :
  ocurrencias sep x = 0%nat ->
  split sep (x +:+ String sep resto) = x :: split sep resto.
Proof.
  induction x as [|ch x IH]; simpl.
  - by rewrite Ascii.eqb_refl.
  - destruct (Ascii.eqb ch sep); [discriminate|]. simpl.
    intros H. by rewrite IH.
Qed.

Lemma split_unir sep l :
  l <> [] -> Forall (fun x => ocurrencias sep x = 0%nat) l ->
  split sep (unir sep l) = l.
Proof.
  intros Hne Hall. induction Hall as [|x l Hx Hall IH]; [done|].
  destruct l as [|y l]; simpl.
  - by apply split_sin.
  - rewrite split_antes by done. f_equal. by apply IH.
Qed.

Lemma fila_partida a b c :
  ocurrencias "," a = 0%nat -> ocurrencias "," b = 0%nat ->
  ocurrencias "," c = 0%nat ->
  split "," (unir "," [a; b; c]) = [a; b; c].
Proof.
  intros Ha Hb Hc. apply split_unir; [done|]. by repeat constructor.
Qed.

Lemma fila_sin_punto_y_coma a b c :
  ocurrencias ";" a = 0%nat -> ocurrencias ";" b = 0%nat ->
  ocurrencias ";" c = 0%nat ->
  ocurrencias ";" (unir "," [a; b; c]) = 0%nat.
Proof.
  intros Ha Hb Hc. simpl. rewrite !ocurrencias_app. simpl.
  rewrite !ocurrencias_app. simpl. lia.
Qed.

Lemma leer_fila float strip q a b c :
  campos_de float strip q (a, b, c) ->
  ocurrencias "," a = 0%nat -> ocurrencias "," b = 0%nat ->
  ocurrencias "," c = 0%nat ->
  leer_perturbacion float strip (unir "," [a; b; c]) = Leido q.
Proof.
  intros Hq Sa Sb Sc. simpl in Hq. destruct Hq as (Ha & Hb & Hc).
  unfold leer_perturbacion.
  rewrite fila_partida by done. unfold leer_float.
  rewrite Ha, Hb, Hc. simpl. by destruct q.
Qed.

Lemma leer_filas float strip l campos acc :
  Forall2 (campos_de float strip) l campos ->
  Forall sin_separadores campos ->
  leer_perturbaciones float strip
    ((fun '(a, b, c) => unir "," [a; b; c]) <$> campos) acc
  = Leido (acc ++ l).
Proof.
  intros H2. revert acc.
  induction H2 as [|q [[a b] c] l campos Hq _ IH]; intros acc Hsin.
  - simpl. by rewrite app_nil_r.
  - inversion Hsin as [|? ? Hs Hsin']; subst.
    simpl in Hs. destruct Hs as (Sa & _ & Sb & _ & Sc & _).
    rewrite fmap_cons. cbn [leer_perturbaciones].
    rewrite (leer_fila float strip q a b c) by done. simpl.
    rewrite IH by done. by rewrite <- app_assoc.
Qed.

Lemma unir_no_vacio sep x l : x <> EmptyString -> unir sep (x :: l) <> EmptyString.
Proof. intros Hx. destruct l; simpl; [done|]. by destruct x. Qed.

(** X12. Writing then reading: a non-empty list of disturbances written as
    rows [a,b,c] joined by semicolons, with fields that hold neither
    separator and that [float] reads back after [strip], is accepted and
    read as that very list, in order. *)
Theorem ida_y_vuelta float strip l campos :
  campos <> [] ->
  Forall2 (campos_de float strip) l campos ->
  Forall sin_separadores campos ->
  strip (texto_de_campos campos) = texto_de_campos campos ->
  parsear_perturbaciones float strip (texto_de_campos campos) = Leido l.
Proof.
  intros Hne H2 Hsin Hstrip. unfold parsear_perturbaciones. rewrite Hstrip.
  assert (split ";" (texto_de_campos campos)
          = (fun '(a, b, c) => unir "," [a; b; c]) <$> campos) as Hsplit.
  { unfold texto_de_campos. apply split_unir.
    - by destruct campos.
    - apply Forall_fmap. eapply Forall_impl; [exact Hsin|].
      intros [[a b] c] Hs. simpl in Hs.
      destruct Hs as (_ & Sa & _ & Sb & _ & Sc). simpl.
      rewrite !ocurrencias_app. simpl. rewrite !ocurrencias_app. simpl. lia. }
  destruct (texto_de_campos campos) as [|ch s] eqn:E.
  - exfalso. destruct campos as [|[[a b] c] campos]; [done|].
    unfold texto_de_campos in E. rewrite fmap_cons in E.
    revert E. apply unir_no_vacio. simpl. by destruct a.
  - rewrite Hsplit. by rewrite (leer_filas float strip l campos []).
Qed.

Lemma ida_y_vuelta_ejemplo :
  parsear_perturbaciones float_de_ejemplo id
    (texto_de_campos [("600", "-2.0", "40"); ("40", "-2.0", "600")])
  = Leido [Perturbacion 600 (-2) 40; Perturbacion 40 (-2) 600].
Proof.
  apply (ida_y_vuelta float_de_ejemplo id).
  - discriminate.
  - repeat constructor.
  - repeat constructor.
  - reflexivity.
Defined.

(** * The caller: the layout of the parameter rows *)

Lemma params_per_col_mitad n :
  (n <= 2 * params_per_col n)%nat /\ (2 * params_per_col n <= n + 1)%nat.
Proof.
  unfold params_per_col.
  pose proof (Nat.div_mod_eq (n + 1) 2) as H.
  pose proof (Nat.mod_upper_bound (n + 1) 2) as Hm. lia.
Qed.

(** X14. The parameter rows are laid out in two columns of
    [(num_params + 1) // 2] rows, labels in grid columns 0 and 2 and
    entries in 1 and 3: every row index is below the column height, and
    no two of the widgets of different parameters, label or entry, share
    a grid cell. *)
Theorem rejilla_sin_choques num_params i j (a b : nat) :
  (i < num_params)%nat -> (j < num_params)%nat ->
  (a <= 1)%nat -> (b <= 1)%nat ->
  (current_row num_params i < params_per_col num_params)%nat /\
  ((current_row num_params i, columna num_params i + a)%nat
   = (current_row num_params j, columna num_params j + b)%nat ->
   i = j /\ a = b).
Proof.
  intros Hi Hj Ha Hb. pose proof (params_per_col_mitad num_params) as [H1 H2].
  unfold current_row, columna.
  destruct (Nat.ltb_spec i (params_per_col num_params));
    destruct (Nat.ltb_spec j (params_per_col num_params));
    (split; [lia|]); intros [= Hr Hc]; lia.
Qed.

Lemma rejilla_sin_choques_ejemplo :
  (current_row 8 5 < params_per_col 8)%nat /\
  ((current_row 8 5, columna 8 5 + 1)%nat
   = (current_row 8 1, columna 8 1 + 1)%nat ->
   5%nat = 1%nat /\ 1%nat = 1%nat).
Proof.
  apply (rejilla_sin_choques 8 5 1 1 1); lia.
Defined.

(** * The binary64 embedding *)

Local Open Scope float_scope.
#[local] Set Warnings "-inexact-float".

(** ** Comparisons of binary64 numbers *)

Lemma SFcompare_refl x : x <> S754_nan -> SFcompare x x = Some Eq.
Proof.
  destruct x as [s|s| |s m e]; intros H; simpl; try done.
  - by destruct s.
  - rewrite Z.compare_refl, Pos.compare_cont_refl. by destruct s.
Qed.

Lemma SFcompare_antisym x y :
  SFcompare y x = option_map CompOpp (SFcompare x y).
Proof.
  destruct x as [sx|sx| |sx mx ex], y as [sy|sy| |sy my ey]; simpl;
    try done; try (by destruct sx); try (by destruct sy);
    try (by destruct sx, sy).
  rewrite (Z.compare_antisym ex ey).
  change (Pos.compare_cont Eq my mx) with (Pos.compare my mx).
  change (Pos.compare_cont Eq mx my) with (Pos.compare mx my).
  rewrite (Pos.compare_antisym mx my).
  destruct sx, sy; simpl; try done;
    destruct (Z.compare ex ey); simpl; try done;
    by destruct (Pos.compare mx my).
Qed.

Lemma SFcompare_None x y :
  SFcompare x y = None -> x = S754_nan \/ y = S754_nan.
Proof.
  destruct x as [sx|sx| |sx mx ex], y as [sy|sy| |sy my ey]; simpl;
    intros H; try discriminate; auto.
Qed.

Lemma is_nan_false x : is_nan x = false <-> Prim2SF x <> S754_nan.
Proof.
  unfold is_nan. rewrite FloatAxioms.eqb_spec, negb_false_iff. unfold SFeqb. split.
  - intros H E. rewrite E in H. discriminate.
  - intros H. by rewrite SFcompare_refl.
Qed.

Lemma ltb_no_nan x y : (x <? y) = true -> is_nan x = false /\ is_nan y = false.
Proof.
  rewrite FloatAxioms.ltb_spec, !is_nan_false. unfold SFltb. intros H.
  split; intros E; rewrite E in H; [done|].
  by destruct (Prim2SF x).
Qed.

Lemma ltb_false_leb x y :
  is_nan x = false -> is_nan y = false -> (x <? y) = false -> (y <=? x) = true.
Proof.
  rewrite !is_nan_false, FloatAxioms.ltb_spec, FloatAxioms.leb_spec. unfold SFltb, SFleb.
  intros Hx Hy H. rewrite SFcompare_antisym.
  destruct (SFcompare (Prim2SF x) (Prim2SF y)) as [[| |]|] eqn:E; simpl;
    try done.
  apply SFcompare_None in E as [E|E]; contradiction.
Qed.

Lemma saturar_b64_acotado u :
  is_nan u = false ->
  (0 <=? B64.saturar u) = true /\ (B64.saturar u <=? 200) = true.
Proof.
  intros Hu. unfold B64.saturar.
  destruct (u <? 0) eqn:H0.
  - change (200 <? 0) with false. cbv iota. split; reflexivity.
  - destruct (200 <? u) eqn:H1.
    + split; reflexivity.
    + split; apply ltb_false_leb; try done; reflexivity.
Qed.

Lemma saturar_b64_nan u : is_nan u = true -> B64.saturar u = u.
Proof.
  intros Hu. unfold B64.saturar.
  destruct (u <? 0) eqn:H0.
  { apply ltb_no_nan in H0 as [H0 _]. congruence. }
  destruct (200 <? u) eqn:H1; [|done].
  apply ltb_no_nan in H1 as [_ H1]. congruence.
Qed.

Lemma piso_b64_nan x : is_nan (B64.piso x) = is_nan x.
Proof.
  unfold B64.piso. destruct (x <? B64.AMBIENT_TEMPERATURE) eqn:H; [|done].
  apply ltb_no_nan in H as [-> _]. reflexivity.
Qed.

Lemma piso_b64_ambiente x :
  is_nan x = false -> (B64.AMBIENT_TEMPERATURE <=? B64.piso x) = true.
Proof.
  intros Hx. unfold B64.piso.
  destruct (x <? B64.AMBIENT_TEMPERATURE) eqn:H; [reflexivity|].
  apply ltb_false_leb; done.
Qed.

(** ** The loop on binary64 numbers *)

Lemma setitem_b64_Ok a i v a' :
  B64.setitem a i v = Ok a' -> (i < length a)%nat /\ a' = <[i := v]> a.
Proof.
  unfold B64.setitem. destruct (Nat.ltb_spec i (length a)); [|discriminate].
  intros [= <-]. auto.
Qed.

Lemma getitem_b64_Ok a i x : B64.getitem a i = Ok x -> a !! i = Some x.
Proof.
  unfold B64.getitem. destruct (a !! i); [intros [= ->]; done | discriminate].
Qed.

Lemma dividir_b64_Ok x y q : B64.dividir x y = Ok q -> q = x / y.
Proof.
  unfold B64.dividir. destruct (y =? 0); [discriminate | by intros [= <-]].
Qed.

Lemma paso_b64_Ok c tiempo s i s' :
  B64.paso c tiempo s i = Ok s' ->
  exists prev t_i,
    B64.theta_o s !! (i - 1)%nat = Some prev /\
    tiempo !! i = Some t_i /\
    B64.cabe i s /\
    s' = B64.siguiente c s i prev t_i.
Proof.
  unfold B64.paso. intros H.
  des_bind H as prev Hprev. apply getitem_b64_Ok in Hprev.
  des_bind H as a1 H1. apply setitem_b64_Ok in H1 as [? ->].
  des_bind H as a2 H2. apply setitem_b64_Ok in H2 as [? ->].
  des_bind H as a3 H3. apply setitem_b64_Ok in H3 as [? ->].
  des_bind H as a4 H4. apply setitem_b64_Ok in H4 as [? ->].
  des_bind H as t_i Hti. apply getitem_b64_Ok in Hti.
  des_bind H as a5 H5. apply setitem_b64_Ok in H5 as [? ->].
  des_bind H as a6 H6. apply dividir_b64_Ok in H6 as ->.
  des_bind H as a7 H7. apply setitem_b64_Ok in H7 as [? ->].
  injection H as <-.
  exists prev, t_i. unfold B64.cabe, B64.siguiente. repeat split; assumption.
Qed.

Lemma siguiente_b64_bien_formado c s i prev t_i n :
  B64.bien_formado n s -> B64.bien_formado n (B64.siguiente c s i prev t_i).
Proof.
  unfold B64.bien_formado, B64.siguiente. simpl. rewrite !length_insert. done.
Qed.

Lemma siguiente_b64_otras c s i prev t_i j :
  j <> i -> B64.celdas (B64.siguiente c s i prev t_i) j = B64.celdas s j.
Proof.
  intros Hj. unfold B64.celdas, B64.siguiente. simpl.
  rewrite !list_lookup_insert_ne by done. reflexivity.
Qed.

Lemma siguiente_b64_en c s i prev t_i :
  B64.cabe i s ->
  B64.celdas (B64.siguiente c s i prev t_i) i =
  let error_i := B64.theta_i c - prev in
  let effective_error :=
    B64.error_efectivo (B64.deadband_threshold c) error_i in
  let integral' :=
    B64.acumular (B64.integral_error s) effective_error (B64.delta_t c) in
  let theta_c :=
    B64.saturar
      (B64.salida_pid c effective_error integral'
         (B64.derivada effective_error (B64.ultimo_error s) (B64.delta_t c))) in
  let p := B64.perturbacion_actual (B64.perturbaciones_data c) t_i in
  (Some (B64.piso (B64.euler c (1 / B64.tau_s c) theta_c prev p)),
   Some theta_c, Some prev, Some error_i, Some p, Some effective_error).
Proof.
  intros (H1 & H2 & H3 & H4 & H5 & H6). unfold B64.celdas, B64.siguiente. simpl.
  rewrite !list_lookup_insert_eq by done. reflexivity.
Qed.

Lemma bucle_b64_app c tiempo l1 l2 s :
  B64.bucle c tiempo (l1 ++ l2) s
  = B64.bucle c tiempo l1 s ≫= B64.bucle c tiempo l2.
Proof.
  revert s. induction l1 as [|i l1 IH]; intros s; simpl; [done|].
  destruct (B64.paso c tiempo s i) as [s'|e]; simpl; [apply IH | done].
Qed.

Lemma inicial_b64_Ok n s :
  B64.inicial n = Ok s ->
  (0 < n)%nat /\
  B64.bien_formado n s /\
  B64.celdas s 0 =
    (Some B64.AMBIENT_TEMPERATURE, Some 0, Some 0, Some 0, Some 0, Some 0) /\
  B64.integral_error s = 0 /\ B64.ultimo_error s = 0.
Proof.
  unfold B64.inicial. intros H. des_bind H as a Ha.
  apply setitem_b64_Ok in Ha as [Hn ->]. injection H as <-.
  unfold B64.zeros in *. rewrite length_replicate in Hn.
  split; [done|]. split.
  - unfold B64.bien_formado. simpl.
    rewrite length_insert, !length_replicate. done.
  - unfold B64.celdas. simpl.
    rewrite list_lookup_insert_eq by (by rewrite length_replicate).
    rewrite !lookup_replicate_2 by done. done.
Qed.

Lemma estado_tras_b64_S c tiempo k :
  B64.estado_tras c tiempo (S k) =
  B64.estado_tras c tiempo k ≫= (fun s => B64.paso c tiempo s (S k)).
Proof.
  unfold B64.estado_tras. rewrite seq_S.
  destruct (B64.inicial (length tiempo)) as [s0|e]; [|done].
  change (B64.bucle c tiempo (seq 1 k ++ [S k]) s0 =
          B64.bucle c tiempo (seq 1 k) s0
            ≫= (fun s => B64.paso c tiempo s (S k))).
  rewrite bucle_b64_app.
  destruct (B64.bucle c tiempo (seq 1 k) s0) as [s|e]; simpl; [|done].
  destruct (B64.paso c tiempo s (S k)); done.
Qed.

Lemma estado_tras_b64_S_Ok c tiempo k s :
  B64.estado_tras c tiempo (S k) = Ok s ->
  exists s_prev, B64.estado_tras c tiempo k = Ok s_prev /\
                 B64.paso c tiempo s_prev (S k) = Ok s.
Proof. rewrite estado_tras_b64_S. apply bind_Ok. Qed.

Lemma estado_tras_b64_bien_formado c tiempo k s :
  B64.estado_tras c tiempo k = Ok s -> B64.bien_formado (length tiempo) s.
Proof.
  revert s. induction k as [|k IH]; intros s H.
  - unfold B64.estado_tras in H. des_bind H as s0 H0. injection H as <-.
    by apply inicial_b64_Ok in H0 as (_ & ? & _).
  - apply estado_tras_b64_S_Ok in H as (sp & Hsp & Hp).
    apply paso_b64_Ok in Hp as (prev & t_i & _ & _ & _ & ->).
    apply siguiente_b64_bien_formado. by apply IH.
Qed.

Lemma estado_tras_b64_previo c tiempo k s j :
  B64.estado_tras c tiempo k = Ok s -> (j <= k)%nat ->
  exists s_j, B64.estado_tras c tiempo j = Ok s_j /\
              forall m, (m <= j)%nat -> B64.celdas s m = B64.celdas s_j m.
Proof.
  revert s. induction k as [|k IH]; intros s H Hj.
  - assert (j = 0%nat) as -> by lia. eauto.
  - destruct (decide (j = S k)) as [->|Hne]; [eauto|].
    apply estado_tras_b64_S_Ok in H as (sp & Hsp & Hp).
    destruct (IH sp Hsp) as (s_j & Hs_j & Hc); [lia|].
    exists s_j. split; [done|]. intros m Hm.
    apply paso_b64_Ok in Hp as (prev & t_i & _ & _ & _ & ->).
    rewrite siguiente_b64_otras by lia. by apply Hc.
Qed.

Lemma simular_b64_Ok c r :
  B64.simular_air_fryer c = Ok r ->
  exists s,
    B64.malla c = Ok (B64.s_tiempo r) /\
    B64.estado_tras c (B64.s_tiempo r) (length (B64.s_tiempo r) - 1) = Ok s /\
    r = B64.empaquetar (B64.s_tiempo r) s /\
    (0 < length (B64.s_tiempo r))%nat.
Proof.
  unfold B64.simular_air_fryer. intros H.
  des_bind H as tiempo Ht. des_bind H as s Hs. injection H as <-.
  exists s. simpl. repeat split; try done.
  unfold B64.estado_tras in Hs. des_bind Hs as s0 H0.
  by apply inicial_b64_Ok in H0 as [? _].
Qed.

Lemma simular_b64_en c r k :
  B64.simular_air_fryer c = Ok r -> (k < length (B64.s_tiempo r))%nat ->
  exists s_k,
    B64.estado_tras c (B64.s_tiempo r) k = Ok s_k /\
    forall m, (m <= k)%nat -> B64.celdas_series r m = B64.celdas s_k m.
Proof.
  intros H Hk. apply simular_b64_Ok in H as (s & _ & Hs & Hr & _).
  destruct (estado_tras_b64_previo _ _ _ _ k Hs) as (s_k & Hs_k & Hc); [lia|].
  exists s_k. split; [done|]. intros m Hm.
  rewrite <- (Hc m Hm), Hr. reflexivity.
Qed.

Lemma simular_b64_paso c r i :
  B64.simular_air_fryer c = Ok r -> (1 <= i < length (B64.s_tiempo r))%nat ->
  exists s_prev s_i prev t_i,
    B64.estado_tras c (B64.s_tiempo r) (i - 1) = Ok s_prev /\
    B64.estado_tras c (B64.s_tiempo r) i = Ok s_i /\
    B64.s_theta_o r !! (i - 1)%nat = Some prev /\
    B64.s_tiempo r !! i = Some t_i /\
    s_i = B64.siguiente c s_prev i prev t_i /\
    B64.cabe i s_prev /\
    B64.celdas_series r i = B64.celdas s_i i.
Proof.
  intros H Hi.
  destruct (simular_b64_en c r i H) as (s_i & Hs_i & Hc_i); [lia|].
  destruct i as [|k]; [lia|].
  destruct (estado_tras_b64_S_Ok _ _ _ _ Hs_i) as (s_prev & Hs_prev & Hp).
  apply paso_b64_Ok in Hp as (prev & t_i & Hprev & Hti & Hcabe & ->).
  replace (S k - 1)%nat with k in * by lia.
  assert (B64.celdas_series r k = B64.celdas s_prev k) as Hk.
  { rewrite Hc_i by lia. apply siguiente_b64_otras. lia. }
  exists s_prev, (B64.siguiente c s_prev (S k) prev t_i), prev, t_i.
  split; [done|]. split; [done|]. split.
  { unfold B64.celdas_series, B64.celdas in Hk.
    injection Hk as -> _ _ _ _ _. done. }
  split; [done|]. split; [done|]. split; [done|]. by apply Hc_i.
Qed.

Lemma simular_b64_cero c r :
  B64.simular_air_fryer c = Ok r ->
  B64.s_theta_o r !! 0%nat = Some B64.AMBIENT_TEMPERATURE.
Proof.
  intros H. pose proof (simular_b64_Ok _ _ H) as (_ & _ & _ & _ & Hn).
  destruct (simular_b64_en c r 0 H Hn) as (s0 & Hs0 & Hc).
  specialize (Hc 0%nat (Nat.le_refl _)).
  unfold B64.estado_tras in Hs0. des_bind Hs0 as s0' Hi. injection Hs0 as <-.
  apply inicial_b64_Ok in Hi as (_ & _ & Hc0 & _).
  rewrite Hc0 in Hc. unfold B64.celdas_series in Hc.
  by injection Hc as -> _ _ _ _ _.
Qed.

Lemma paso_b64_total c tiempo s i :
  B64.cabe i s -> (i < length tiempo)%nat -> (B64.tau_s c =? 0) = false ->
  exists s', B64.paso c tiempo s i = Ok s'.
Proof.
  intros (H1 & H2 & H3 & H4 & H5 & H6) Ht Htau.
  destruct (lookup_lt_is_Some_2 (B64.theta_o s) (i - 1)) as [prev Hp]; [lia|].
  destruct (lookup_lt_is_Some_2 tiempo i Ht) as [t_i Hti].
  unfold B64.paso, B64.getitem, B64.setitem, B64.dividir.
  rewrite Hp, Hti, Htau. simpl.
  repeat match goal with
         | |- context [(i <? ?n)%nat] =>
             destruct (Nat.ltb_spec i n); [simpl | lia]
         end.
  eauto.
Qed.

Lemma estado_tras_b64_total c tiempo k :
  (k < length tiempo)%nat -> (B64.tau_s c =? 0) = false ->
  exists s, B64.estado_tras c tiempo k = Ok s.
Proof.
  intros Hk Htau. induction k as [|k IH].
  - unfold B64.estado_tras, B64.inicial, B64.setitem, B64.zeros.
    rewrite length_replicate.
    destruct (Nat.ltb_spec 0 (length tiempo)); [simpl; eauto | lia].
  - destruct IH as [sp Hsp]; [lia|].
    pose proof (estado_tras_b64_bien_formado _ _ _ _ Hsp)
      as (B1 & B2 & B3 & B4 & B5 & B6).
    destruct (paso_b64_total c tiempo sp (S k)) as [s Hs]; [|done|done|].
    { unfold B64.cabe. rewrite B1, B2, B3, B4, B5, B6. tauto. }
    rewrite estado_tras_b64_S, Hsp. simpl. eauto.
Qed.

Lemma simular_b64_total c tiempo :
  B64.malla c = Ok tiempo -> (0 < length tiempo)%nat ->
  (B64.tau_s c =? 0) = false ->
  exists r, B64.simular_air_fryer c = Ok r /\ B64.s_tiempo r = tiempo.
Proof.
  intros Hm Hn Htau.
  destruct (estado_tras_b64_total c tiempo (length tiempo - 1)) as [s Hs];
    [lia | done |].
  unfold B64.simular_air_fryer. rewrite Hm. simpl. rewrite Hs. simpl. eauto.
Qed.

Lemma malla_b64_Ok c tiempo :
  B64.malla c = Ok tiempo ->
  exists z,
    B64.techo ((B64.duracion c + B64.delta_t c - 0) / B64.delta_t c) = Some z /\
    length tiempo = Z.to_nat z /\
    forall i, (i < Z.to_nat z)%nat ->
      tiempo !! i = Some (B64.instante (B64.delta_t c) i).
Proof.
  unfold B64.malla, B64.arange.
  destruct (B64.delta_t c =? 0); [discriminate|].
  destruct (B64.techo _) as [z|]; [|discriminate].
  destruct (Z.abs z <? 2 ^ 63)%Z; [|discriminate].
  intros [= <-]. exists z. split; [done|]. split.
  - by rewrite length_fmap, length_seq.
  - intros i Hi. rewrite list_lookup_fmap, lookup_seq_lt by done.
    by destruct i as [|[|i]].
Qed.

(** ** The claims that turn on binary64 *)

(** C4 (as the program has it).  Every run that returns gives seven
    series of one length [n >= 1], and [n] is the ceiling of
    [(duracion + delta_t) / delta_t] with the sum and the quotient
    computed in binary64, as [np.arange] computes it; the time series is
    the grid [np.arange] fills, [t_0 = 0], [t_1 = 0 + delta_t] and
    [t_i = 0 + i * ((0 + delta_t) - 0)] from there on, that is
    [i * delta_t] rounded.  The run returns whenever [np.arange] builds
    a non-empty grid and the time constant is not zero.  A duration of
    3600 with a step of 1 gives 3601 samples. *)
Theorem cantidad_de_muestras_b64 :
  (forall c r,
     B64.simular_air_fryer c = Ok r ->
     exists z,
       B64.techo ((B64.duracion c + B64.delta_t c - 0) / B64.delta_t c)
       = Some z /\
       (1 <= Z.to_nat z)%nat /\
       length (B64.s_tiempo r) = Z.to_nat z /\
       length (B64.s_theta_o r) = Z.to_nat z /\
       length (B64.s_theta_controlador r) = Z.to_nat z /\
       length (B64.s_f r) = Z.to_nat z /\
       length (B64.s_error r) = Z.to_nat z /\
       length (B64.s_p_total r) = Z.to_nat z /\
       length (B64.s_effective_error r) = Z.to_nat z /\
       forall i, (i < Z.to_nat z)%nat ->
         B64.s_tiempo r !! i = Some (B64.instante (B64.delta_t c) i)) /\
  (forall c tiempo,
     B64.malla c = Ok tiempo -> (0 < length tiempo)%nat ->
     (B64.tau_s c =? 0) = false ->
     exists r, B64.simular_air_fryer c = Ok r /\ B64.s_tiempo r = tiempo) /\
  (exists r,
     B64.simular_air_fryer (B64.escenario 3600) = Ok r /\
     length (B64.s_tiempo r) = 3601%nat /\
     B64.s_tiempo r !! 3600%nat = Some 3600).
Proof.
  split; [|split].
  - intros c r H.
    destruct (simular_b64_Ok _ _ H) as (s & Hm & Hs & Hemp & Hpos).
    destruct (malla_b64_Ok _ _ Hm) as (z & Hz & Hlen & Hgrid).
    pose proof (estado_tras_b64_bien_formado _ _ _ _ Hs) as Hbf.
    rewrite Hlen in Hbf, Hpos. destruct Hbf as (B1 & B2 & B3 & B4 & B5 & B6).
    exists z. split; [done|]. split; [lia|]. split; [done|].
    rewrite Hemp. simpl. repeat (split; [done|]). done.
  - apply simular_b64_total.
  - destruct (simular_b64_total (B64.escenario 3600)
                (match B64.malla (B64.escenario 3600) with
                 | Ok tiempo => tiempo
                 | Raise _ => []
                 end)) as (r & Hr & Ht).
    + vm_compute. reflexivity.
    + vm_compute. lia.
    + reflexivity.
    + exists r. split; [done|]. rewrite Ht. split; vm_compute; reflexivity.
Qed.

(** A duration of 0.2 with a step of 0.1: the binary64 quotient
    [(0.2 + 0.1) / 0.1] is just above 3, so the run has four samples. *)
Lemma cantidad_de_muestras_b64_ejemplo :
  length (B64.s_tiempo
            (B64.resultado_de
               (B64.Parametros 180 2 0.001 5 175 0.1 0.2 5 None))) = 4%nat /\
  length (B64.s_theta_o
            (B64.resultado_de
               (B64.Parametros 180 2 0.001 5 175 0.1 0.2 5 None))) = 4%nat.
Proof.
  destruct (proj1 cantidad_de_muestras_b64
              (B64.Parametros 180 2 0.001 5 175 0.1 0.2 5 None)
              (B64.resultado_de
                 (B64.Parametros 180 2 0.001 5 175 0.1 0.2 5 None)))
    as (z & Hz & _ & Ht & Hto & _).
  - vm_compute. reflexivity.
  - vm_compute in Hz. injection Hz as <-. split; [exact Ht | exact Hto].
Defined.

(** C6 (as the program has it).  At every step [i >= 1] the stored
    controller output is the clamp of the raw output
    [Kp*eff + Ki*integral + Kd*derivative].  When the raw output is not
    NaN the stored output lies in [0, 200], the bounds written in the
    code; when it is NaN both tests of the clamp are false and NaN is
    stored.  The clamp touches the stored output only: the accumulator
    after the step is the gated update of the accumulator before it,
    and it is that unclamped accumulator that enters the raw output. *)
Theorem saturacion_b64 c r i :
  B64.simular_air_fryer c = Ok r -> (1 <= i < length (B64.s_tiempo r))%nat ->
  exists raw u eff_i s_prev s_i,
    B64.s_theta_controlador r !! i = Some u /\
    B64.s_effective_error r !! i = Some eff_i /\
    B64.estado_tras c (B64.s_tiempo r) (i - 1) = Ok s_prev /\
    B64.estado_tras c (B64.s_tiempo r) i = Ok s_i /\
    raw = B64.salida_pid c eff_i (B64.integral_error s_i)
            (B64.derivada eff_i (B64.ultimo_error s_prev) (B64.delta_t c)) /\
    u = B64.saturar raw /\
    (is_nan raw = false -> (0 <=? u) = true /\ (u <=? 200) = true) /\
    (is_nan raw = true -> is_nan u = true) /\
    B64.integral_error s_i
    = B64.acumular (B64.integral_error s_prev) eff_i (B64.delta_t c).
Proof.
  intros H Hi.
  destruct (simular_b64_paso c r i H Hi) as
    (s_prev & s_i & prev & t_i & Hsp & Hsi & _ & _ & -> & Hc & Hr).
  rewrite siguiente_b64_en in Hr by done. cbv zeta in Hr.
  unfold B64.celdas_series in Hr. injection Hr as _ Htc _ _ _ Heff.
  eexists _, _, _, s_prev, _.
  split; [exact Htc|]. split; [exact Heff|]. split; [done|]. split; [done|].
  split; [reflexivity|]. split; [reflexivity|].
  split; [apply saturar_b64_acotado|].
  split; [|reflexivity].
  intros Hnan. by rewrite saturar_b64_nan.
Qed.

Lemma saturacion_b64_ejemplo :
  exists raw u eff_i s_prev s_i,
    B64.s_theta_controlador (B64.resultado_de (B64.escenario 2)) !! 1%nat
    = Some u /\
    B64.s_effective_error (B64.resultado_de (B64.escenario 2)) !! 1%nat
    = Some eff_i /\
    B64.estado_tras (B64.escenario 2)
      (B64.s_tiempo (B64.resultado_de (B64.escenario 2))) (1 - 1) = Ok s_prev /\
    B64.estado_tras (B64.escenario 2)
      (B64.s_tiempo (B64.resultado_de (B64.escenario 2))) 1 = Ok s_i /\
    raw = B64.salida_pid (B64.escenario 2) eff_i (B64.integral_error s_i)
            (B64.derivada eff_i (B64.ultimo_error s_prev)
               (B64.delta_t (B64.escenario 2))) /\
    u = B64.saturar raw /\
    (is_nan raw = false -> (0 <=? u) = true /\ (u <=? 200) = true) /\
    (is_nan raw = true -> is_nan u = true) /\
    B64.integral_error s_i
    = B64.acumular (B64.integral_error s_prev) eff_i
        (B64.delta_t (B64.escenario 2)).
Proof.
  apply (saturacion_b64 (B64.escenario 2) (B64.resultado_de (B64.escenario 2)) 1).
  - vm_compute. reflexivity.
  - vm_compute. lia.
Defined.

(** C6, as stated, fails: with the finite gains Kp = 1e308 and
    Kd = -1e308 the raw output of step 1 is [inf + 0.16 + (-inf)], a NaN,
    and NaN is what is stored, outside [0, 200]. *)
Lemma saturacion_b64_nan :
  ~ (forall c r i u,
       B64.simular_air_fryer c = Ok r ->
       (1 <= i < length (B64.s_tiempo r))%nat ->
       B64.s_theta_controlador r !! i = Some u ->
       (0 <=? u) = true /\ (u <=? 200) = true).
Proof.
  intros H.
  destruct (H B64.ganancias_enormes (B64.resultado_de B64.ganancias_enormes)
              1%nat nan) as [H0 _].
  - vm_compute. reflexivity.
  - vm_compute. lia.
  - vm_compute. reflexivity.
  - vm_compute in H0. discriminate.
Qed.

(** C7 (as the program has it).  The plant starts at the ambient
    temperature, and every later sample is the floor test applied to
    the Euler value: a sample that is not NaN is at least the ambient
    temperature, whatever the sign or the size of the disturbances, and
    a sample is NaN exactly when its Euler value is, because the floor
    test is false of a NaN. *)
Theorem piso_ambiente_b64 c r i :
  B64.simular_air_fryer c = Ok r -> (i < length (B64.s_tiempo r))%nat ->
  exists x,
    B64.s_theta_o r !! i = Some x /\
    (i = 0%nat -> x = B64.AMBIENT_TEMPERATURE) /\
    (is_nan x = false -> (B64.AMBIENT_TEMPERATURE <=? x) = true) /\
    ((1 <= i)%nat ->
     exists prev theta_c p,
       B64.s_theta_o r !! (i - 1)%nat = Some prev /\
       B64.s_theta_controlador r !! i = Some theta_c /\
       B64.s_p_total r !! i = Some p /\
       x = B64.piso (B64.euler c (1 / B64.tau_s c) theta_c prev p) /\
       is_nan x = is_nan (B64.euler c (1 / B64.tau_s c) theta_c prev p)).
Proof.
  intros H Hi. destruct i as [|k].
  - exists B64.AMBIENT_TEMPERATURE.
    split; [by apply (simular_b64_cero c)|]. split; [done|].
    split; [reflexivity | lia].
  - destruct (simular_b64_paso c r (S k) H) as
      (s_prev & s_i & prev & t_i & _ & _ & Hprev & _ & -> & Hc & Hr); [lia|].
    rewrite siguiente_b64_en in Hr by done. cbv zeta in Hr.
    unfold B64.celdas_series in Hr. injection Hr as Hto Htc _ _ Hp _.
    eexists. split; [exact Hto|]. split; [lia|]. split.
    + rewrite piso_b64_nan. apply piso_b64_ambiente.
    + intros _. eexists prev, _, _.
      split; [done|]. split; [exact Htc|]. split; [exact Hp|].
      split; [reflexivity | apply piso_b64_nan].
Qed.

Lemma piso_ambiente_b64_ejemplo :
  exists x,
    B64.s_theta_o (B64.resultado_de (B64.escenario 2)) !! 2%nat = Some x /\
    (2%nat = 0%nat -> x = B64.AMBIENT_TEMPERATURE) /\
    (is_nan x = false -> (B64.AMBIENT_TEMPERATURE <=? x) = true) /\
    ((1 <= 2)%nat ->
     exists prev theta_c p,
       B64.s_theta_o (B64.resultado_de (B64.escenario 2)) !! (2 - 1)%nat
       = Some prev /\
       B64.s_theta_controlador (B64.resultado_de (B64.escenario 2)) !! 2%nat
       = Some theta_c /\
       B64.s_p_total (B64.resultado_de (B64.escenario 2)) !! 2%nat = Some p /\
       x = B64.piso
             (B64.euler (B64.escenario 2) (1 / B64.tau_s (B64.escenario 2))
                theta_c prev p) /\
       is_nan x
       = is_nan
           (B64.euler (B64.escenario 2) (1 / B64.tau_s (B64.escenario 2))
              theta_c prev p)).
Proof.
  apply (piso_ambiente_b64 (B64.escenario 2)
           (B64.resultado_de (B64.escenario 2)) 2).
  - vm_compute. reflexivity.
  - vm_compute. lia.
Defined.

(** C7, as stated, fails: one heating disturbance of magnitude 1e308
    over the first three steps drives the plant to 1e308, then to
    infinity, then to [inf + (-inf)], a NaN, which the floor test lets
    through: the sample of index 3 is not at least the ambient
    temperature. *)
Lemma piso_ambiente_b64_nan :
  ~ (forall c r i x,
       B64.simular_air_fryer c = Ok r ->
       (i < length (B64.s_tiempo r))%nat ->
       B64.s_theta_o r !! i = Some x ->
       (B64.AMBIENT_TEMPERATURE <=? x) = true).
Proof.
  intros H.
  pose proof (H B64.perturbacion_enorme
                (B64.resultado_de B64.perturbacion_enorme) 3%nat nan) as H0.
  assert ((B64.AMBIENT_TEMPERATURE <=? nan) = true) as Habs; [|discriminate].
  apply H0.
  - vm_compute. reflexivity.
  - vm_compute. lia.
  - vm_compute. reflexivity.
Qed.
